(** * BemEntityName: the entity-name value type of src/index.js

    A shallow embedding of the class [BemEntityName] and the proofs of the
    properties its specification states.

    - JavaScript values are the inductive [value]; a plain object is a
      finite map from property names to values.
    - A thrown exception is the [Throw] case of [result].
    - An instance is the record [BemEntityName]; instances live in a [heap]
      and are named by their location, so that two references to one
      instance share its lazily filled [_id] and [_type] slots.
    - The two functions taken from the package [bem-naming]
      ([stringifyEntity], [typeOfEntity]) and [util.inspect] are section
      variables. *)

From Stdlib Require Import ZArith String.
From stdpp Require Import gmap strings list fin_maps.

Local Open Scope string_scope.

(** ** JavaScript values *)

(** The values an input can hold: [undefined], [null], booleans, numbers,
    strings and plain objects. Numbers are the integers and [NaN]: the class
    only ever tests a number for truthiness. An object is a plain data
    object: own data properties, prototype [Object.prototype]. No value is
    a function. *)
#[warnings="-register-all"]
Inductive value : Type :=
  | VUndefined
  | VNull
  | VBoolean (b : bool)
  | VNumber (n : Z)
  | VNaN
  | VString (s : string)
  | VObject (props : gmap string value).

(** Exceptions: [new Error(message)] and the engine's [TypeError]. *)
Inductive exn : Type :=
  | Error (message : string)
  | TypeError.

Inductive result (A : Type) : Type :=
  | Ok (a : A)
  | Throw (e : exn).
Arguments Ok {A} a.
Arguments Throw {A} e.

#[global] Instance result_ret : MRet result := fun A a => Ok a.
#[global] Instance result_bind : MBind result := fun A B k r =>
  match r with
  | Ok a => k a
  | Throw e => Throw e
  end.

(** [ToBoolean]: the falsy values are [undefined], [null], [false], [0],
    [NaN] and the empty string. *)
Definition ToBoolean (v : value) : bool :=
  match v with
  | VUndefined | VNull | VNaN => false
  | VBoolean b => b
  | VNumber n => negb (Z.eqb n 0)
  | VString s => negb (String.eqb s "")
  | VObject _ => true
  end.

Definition typeof (v : value) : string :=
  match v with
  | VUndefined => "undefined"
  | VNull => "object"
  | VBoolean _ => "boolean"
  | VNumber _ | VNaN => "number"
  | VString _ => "string"
  | VObject _ => "object"
  end.

(** [v.k]. Reading a property of [undefined] or [null] throws. The names
    this class reads ([block], [elem], [mod], [modName], [modVal], [name],
    [val], [id], [_isEntity]) are defined neither on [Object.prototype] nor
    on the prototypes of the primitive wrappers, so where the own property
    is missing the read gives [undefined]. *)
Definition Get (v : value) (k : string) : result value :=
  match v with
  | VUndefined | VNull => Throw TypeError
  | VObject props => Ok (default VUndefined (props !! k))
  | VBoolean _ | VNumber _ | VNaN | VString _ => Ok VUndefined
  end.

(** [v.hasOwnProperty(k)]: the property [hasOwnProperty] is looked up and
    called. An object with an own property of that name shadows the method
    of [Object.prototype] with a value that is no function, and the call
    throws; otherwise the inherited method answers. The own keys of a
    string primitive are [length] and its indices, those of the other
    primitives none; the class asks for [modVal] and [val]. *)
Definition hasOwnProperty (v : value) (k : string) : result value :=
  match v with
  | VUndefined | VNull => Throw TypeError
  | VObject props =>
      match props !! "hasOwnProperty" with
      | Some _ => Throw TypeError
      | None =>
          Ok (VBoolean
                (match props !! k with Some _ => true | None => false end))
      end
  | VBoolean _ | VNumber _ | VNaN | VString _ => Ok (VBoolean false)
  end.

(** [a && b] and [a || b]: the right operand is evaluated only when the
    left one does not decide, and the result is an operand, not a boolean. *)
Definition and_then (a b : result value) : result value :=
  x ← a; if ToBoolean x then b else mret x.

Definition or_else (a b : result value) : result value :=
  x ← a; if ToBoolean x then mret x else b.

Infix "&&&" := and_then (at level 40, left associativity).
Infix "|||" := or_else (at level 50, left associativity).

(** ** The class *)

(** The own fields of an instance. [_id] and [_type] are [None] until the
    getter assigns them; reading an unassigned slot gives [undefined]. *)
Record BemEntityName : Type := mkBemEntityName {
  _obj : gmap string value;
  _isEntity : value;
  _id : option string;
  _type : option string
}.

(** [if (this._id) { return this._id; }]: the slot's string when the slot
    reads truthy. *)
Definition cached (c : option string) : option string :=
  match c with
  | Some s => if ToBoolean (VString s) then Some s else None
  | None => None
  end.

Definition invalid_entity : string :=
  "This is not valid BEM entity: the field `block` is undefined.".

(** [constructor(obj)]: the instance the body builds, or what it throws. *)
Definition constructor (obj : value) : result BemEntityName :=
  block ← Get obj "block";
  if negb (ToBoolean block) then Throw (Error invalid_entity)
  else
    let o : gmap string value := {[ "block" := block ]} in
    elem ← Get obj "elem";
    o ← (if ToBoolean elem
         then (v ← Get obj "elem"; mret (<[ "elem" := v ]> o))
         else mret o);
    modName ←
      (m ← Get obj "mod";
       if String.eqb (typeof m) "string" then Get obj "mod"
       else Get obj "mod" &&& (m ← Get obj "mod"; Get m "name"))
      ||| Get obj "modName";
    if ToBoolean modName then
      declared ←
        hasOwnProperty obj "modVal"
        ||| (Get obj "mod" &&& (m ← Get obj "mod"; hasOwnProperty m "val"));
      modVal ←
        (if ToBoolean declared
         then (Get obj "mod" &&& (m ← Get obj "mod"; Get m "val"))
              ||| Get obj "modVal"
         else mret (VBoolean true));
      let o :=
        <[ "mod" := VObject {[ "name" := modName; "val" := modVal ]} ]> o in
      mret (mkBemEntityName o (VBoolean true) None None)
    else
      mret (mkBemEntityName o (VBoolean true) None None).

(** *** Getters that only read *)

Definition block (this : BemEntityName) : value :=
  default VUndefined (_obj this !! "block").

Definition elem (this : BemEntityName) : value :=
  default VUndefined (_obj this !! "elem").

(** The getter [mod] ([mod] alone is reserved here):
    [this._obj.mod || {}] *)
Definition mod_ (this : BemEntityName) : value :=
  let m := default VUndefined (_obj this !! "mod") in
  if ToBoolean m then m else VObject ∅.

Definition modName (this : BemEntityName) : result value :=
  Get (mod_ this) "name".

Definition modVal (this : BemEntityName) : result value :=
  Get (mod_ this) "val".

Definition valueOf (this : BemEntityName) : value :=
  VObject (_obj this).

(** The object both [id] and [type] hand to [bem-naming]:
    [{ block }] plus [elem], [modName], [modVal] where truthy. *)
Definition naming_entity (this : BemEntityName) : result value :=
  let entity : gmap string value := {[ "block" := block this ]} in
  let entity :=
    if ToBoolean (elem this) then <[ "elem" := elem this ]> entity
    else entity in
  n ← Get (mod_ this) "name";
  entity ← (if ToBoolean n
            then (n ← Get (mod_ this) "name";
                  mret (<[ "modName" := n ]> entity))
            else mret entity);
  v ← Get (mod_ this) "val";
  entity ← (if ToBoolean v
            then (v ← Get (mod_ this) "val";
                  mret (<[ "modVal" := v ]> entity))
            else mret entity);
  mret (VObject entity).

(** ** Instances in the heap *)

Definition loc : Type := nat.
Definition heap : Type := list BemEntityName.

(** What a caller can pass to [isEqual] and [isBemEntity]: a data value or
    a reference to an instance. *)
Inductive operand : Type :=
  | Data (v : value)
  | Instance (l : loc).

(** Computations that read and update the heap and may throw. *)
Definition M (A : Type) : Type := heap → result A * heap.

#[global] Instance M_ret : MRet M := fun A a h => (Ok a, h).
#[global] Instance M_bind : MBind M := fun A B k m h =>
  match m h with
  | (Ok a, h') => k a h'
  | (Throw e, h') => (Throw e, h')
  end.

Definition lift {A : Type} (r : result A) : M A := fun h => (r, h).

(** The instance a reference names. A location outside the heap names
    nothing; no caller holds one. *)
Definition deref (l : loc) : M BemEntityName := fun h =>
  match h !! l with
  | Some e => (Ok e, h)
  | None => (Throw TypeError, h)
  end.

Definition assign (l : loc) (e : BemEntityName) : M unit := fun h =>
  (Ok tt, <[ l := e ]> h).

(** [new BemEntityName(obj)]: the instance becomes reachable only when the
    constructor returns. *)
Definition new_BemEntityName (obj : value) : M loc := fun h =>
  match constructor obj with
  | Ok e => (Ok (length h), (h ++ [e])%list)
  | Throw x => (Throw x, h)
  end.

(** ** What the constructor computes *)

(** [v.k] where [v] is known not to be [undefined] or [null]. *)
Definition member (v : value) (k : string) : value :=
  match v with
  | VObject props => default VUndefined (props !! k)
  | _ => VUndefined
  end.

Definition own (v : value) (k : string) : bool :=
  match v with
  | VObject props => match props !! k with Some _ => true | None => false end
  | _ => false
  end.

(** The modifier name that [obj.mod] supplies, the resolved name, whether a
    value property is declared, and the resolved value. *)
Definition supplied_name (obj : value) : value :=
  let m := member obj "mod" in
  if String.eqb (typeof m) "string" then m
  else if ToBoolean m then member m "name" else m.

Definition resolved_name (obj : value) : value :=
  if ToBoolean (supplied_name obj) then supplied_name obj
  else member obj "modName".

Definition declared_val (obj : value) : bool :=
  own obj "modVal"
  || (ToBoolean (member obj "mod") && own (member obj "mod") "val").

Definition supplied_val (obj : value) : value :=
  let m := member obj "mod" in
  if ToBoolean m then member m "val" else m.

Definition resolved_val (obj : value) : value :=
  if declared_val obj then
    if ToBoolean (supplied_val obj) then supplied_val obj
    else member obj "modVal"
  else VBoolean true.

(** Whether a call of [hasOwnProperty] that the constructor makes once a
    name has resolved meets an own property of that name: on the input, or
    on a truthy [mod] when the input has no own [modVal]. *)
Definition shadowed (obj : value) : bool :=
  own obj "hasOwnProperty"
  || (negb (own obj "modVal") && ToBoolean (member obj "mod")
      && own (member obj "mod") "hasOwnProperty").

Definition normalized (obj : value) : gmap string value :=
  let o : gmap string value := {[ "block" := member obj "block" ]} in
  let o := if ToBoolean (member obj "elem")
           then <[ "elem" := member obj "elem" ]> o else o in
  if ToBoolean (resolved_name obj)
  then <[ "mod" := VObject {[ "name" := resolved_name obj;
                              "val" := resolved_val obj ]} ]> o
  else o.

(** The tuple as the specification words it: [{block, elem?, modName?,
    modVal?}], where [elem], [modName] and [modVal] are left out when
    falsy. [naming_entity] is what the getters build. *)
Definition entity_tuple (this : BemEntityName) : gmap string value :=
  let put k v (t : gmap string value) :=
    if ToBoolean v then <[ k := v ]> t else t in
  put "modVal" (member (mod_ this) "val")
    (put "modName" (member (mod_ this) "name")
       (put "elem" (elem this) {[ "block" := block this ]})).

(** ** A naming convention to run examples with *)

Definition text (v : value) : string :=
  match v with
  | VString s => s
  | _ => ""
  end.

(** [block__elem_modName_modVal], the value written only when a string. *)
Definition sample_stringify (entity : value) : string :=
  text (member entity "block")
  ++ (if own entity "elem" then "__" ++ text (member entity "elem") else "")
  ++ (if own entity "modName" then "_" ++ text (member entity "modName") else "")
  ++ (match member entity "modVal" with VString s => "_" ++ s | _ => "" end).

Definition sample_typeOf (entity : value) : string :=
  match own entity "elem", own entity "modName" with
  | false, false => "block"
  | true, false => "elem"
  | false, true => "blockMod"
  | true, true => "elemMod"
  end.

Definition sample_inspect (v options : value) : string := "{ ... }".

(** Heaps for the examples: one instance; the same modifier entered in two
    shapes, next to an element. *)
Definition menu_heap : heap :=
  (new_BemEntityName
     (VObject {[ "block" := VString "menu"; "elem" := VString "item";
                 "mod" := VString "current" ]}) []).2.

Definition block_heap : heap :=
  (new_BemEntityName (VObject {[ "block" := VString "b" ]}) []).2.

Definition shapes_heap : heap :=
  (new_BemEntityName
     (VObject {[ "block" := VString "b"; "elem" := VString "e" ]})
     (new_BemEntityName
        (VObject {[ "block" := VString "b"; "modName" := VString "m" ]})
        (new_BemEntityName
           (VObject {[ "block" := VString "b"; "mod" := VString "m" ]})
           []).2).2).2.

Section Naming.

(** [naming.stringify] and [naming.typeOf] of the package [bem-naming],
    and Node's [util.inspect]. *)
Variable stringifyEntity : value → string.
Variable typeOfEntity : value → string.
Variable util_inspect : value → value → string.

Definition id (this : loc) : M string :=
  e ← deref this;
  match cached (_id e) with
  | Some s => mret s
  | None =>
      entity ← lift (naming_entity e);
      let s := stringifyEntity entity in
      _ ← assign this (mkBemEntityName (_obj e) (_isEntity e) (Some s) (_type e));
      mret s
  end.

Definition type (this : loc) : M string :=
  e ← deref this;
  match cached (_type e) with
  | Some s => mret s
  | None =>
      entity ← lift (naming_entity e);
      let s := typeOfEntity entity in
      _ ← assign this (mkBemEntityName (_obj e) (_isEntity e) (_id e) (Some s));
      mret s
  end.

Definition toString (this : loc) : M string := id this.

(** [`BemEntityName ${util.inspect(this._obj, options)}`] *)
Definition inspect (this : BemEntityName) (depth options : value) : string :=
  let stringRepresentation := util_inspect (VObject (_obj this)) options in
  "BemEntityName " ++ stringRepresentation.

(** [entity.id] for an operand: the getter of an instance, a plain read of
    a data value. *)
Definition id_of (entity : operand) : M value :=
  match entity with
  | Instance l => s ← id l; mret (VString s)
  | Data v => lift (Get v "id")
  end.

(** [a === v] with the string [a] on the left. *)
Definition strict_equals (a : string) (v : value) : bool :=
  match v with
  | VString b => String.eqb a b
  | _ => false
  end.

(** [entity && (this.id === entity.id)]: a falsy [entity] is returned as it
    is; an instance is an object, hence truthy. *)
Definition isEqual (this : loc) (entity : operand) : M value :=
  let compare : M value :=
    a ← id this;
    b ← id_of entity;
    mret (VBoolean (strict_equals a b)) in
  match entity with
  | Instance _ => compare
  | Data v => if ToBoolean v then compare else mret v
  end.

(** [entity._isEntity] *)
Definition isBemEntity (entity : operand) : M value :=
  match entity with
  | Instance l => e ← deref l; mret (_isEntity e)
  | Data v => lift (Get v "_isEntity")
  end.

(** *** Heaps a program can build *)

(** Every heap a program reaches from the empty one by constructing
    instances and calling the methods that write to them. *)
Inductive reachable : heap → Prop :=
  | reachable_nil : reachable []
  | reachable_new obj h :
      reachable h → reachable (new_BemEntityName obj h).2
  | reachable_id l h : reachable h → reachable (id l h).2
  | reachable_type l h : reachable h → reachable (type l h).2
  | reachable_toString l h : reachable h → reachable (toString l h).2
  | reachable_isEqual l entity h :
      reachable h → reachable (isEqual l entity h).2.

(** *** Invariants of reachable heaps *)

(** The canonical key of an instance. *)
Definition id_value (e : BemEntityName) : string :=
  stringifyEntity (VObject (entity_tuple e)).

(** An instance was built by the constructor, and a filled slot holds what
    [bem-naming] answers for the instance's tuple. *)
Definition instance_ok (e : BemEntityName) : Prop :=
  (∃ obj, constructor obj = Ok (mkBemEntityName (_obj e) (VBoolean true) None None))
  ∧ _isEntity e = VBoolean true
  ∧ (∀ s, _id e = Some s → s = id_value e)
  ∧ (∀ s, _type e = Some s → s = typeOfEntity (VObject (entity_tuple e))).

Definition heap_ok (h : heap) : Prop := Forall instance_ok h.

(** Two heaps hold the same instances up to their slots. *)
Definition same_entities (h h' : heap) : Prop :=
  Forall2 (λ e e', _obj e = _obj e' ∧ _isEntity e = _isEntity e') h h'.

(** [evolves h h']: a program gets from the heap [h] to the heap [h'] by
    constructing instances and calling the methods that write to them. *)
Inductive evolves : heap → heap → Prop :=
  | evolves_here h : evolves h h
  | evolves_new obj h h' :
      evolves h h' → evolves h (new_BemEntityName obj h').2
  | evolves_id l h h' : evolves h h' → evolves h (id l h').2
  | evolves_type l h h' : evolves h h' → evolves h (type l h').2
  | evolves_toString l h h' : evolves h h' → evolves h (toString l h').2
  | evolves_isEqual l entity h h' :
      evolves h h' → evolves h (isEqual l entity h').2.

End Naming.

(** The heap of one block after its [id] was read, a second entity was
    constructed and the two were compared. *)
Definition later_heap : heap :=
  (isEqual sample_stringify 0 (Instance 1)
     (new_BemEntityName
        (VObject {[ "block" := VString "b"; "elem" := VString "e" ]})
        (id sample_stringify 0 block_heap).2).2).2.

(** ** Lemmas on values and on the constructor *)

Lemma Get_member (props : gmap string value) (k : string) :
  Get (VObject props) k = Ok (member (VObject props) k).
Proof. reflexivity. Qed.

Lemma Get_truthy (v : value) (k : string) :
  ToBoolean v = true → Get v k = Ok (member v k).
Proof. by destruct v. Qed.

Lemma hasOwnProperty_truthy (v : value) (k : string) :
  ToBoolean v = true →
  hasOwnProperty v k =
    if own v "hasOwnProperty" then Throw TypeError
    else Ok (VBoolean (own v k)).
Proof. destruct v; try done. intros _. cbn. by destruct (_ !! _). Qed.

Lemma hasOwnProperty_own (props : gmap string value) (k : string) :
  hasOwnProperty (VObject props) k =
    if own (VObject props) "hasOwnProperty" then Throw TypeError
    else Ok (VBoolean (own (VObject props) k)).
Proof. cbn. by destruct (_ !! _). Qed.

Ltac case_truth :=
  repeat match goal with
    | |- context [ToBoolean (member ?v ?k)] =>
        destruct (ToBoolean (member v k)) eqn:?; cbn
    | |- context [ToBoolean (default ?d ?o)] =>
        destruct (ToBoolean (default d o)) eqn:?; cbn
    | |- context [own ?v ?k] => destruct (own v k) eqn:?; cbn
    | |- context [String.eqb ?s ?t] => destruct (String.eqb s t) eqn:?; cbn
    | |- context [Z.eqb ?n ?m] => destruct (Z.eqb n m) eqn:?; cbn
    | |- context [match ?m !! ?k with Some _ => _ | None => _ end] =>
        destruct (m !! k) eqn:?; cbn
    end.

Lemma constructor_object (props : gmap string value) :
  constructor (VObject props) =
    if ToBoolean (member (VObject props) "block")
    then
      if ToBoolean (resolved_name (VObject props)) && shadowed (VObject props)
      then Throw TypeError
      else Ok (mkBemEntityName (normalized (VObject props)) (VBoolean true)
                 None None)
    else Throw (Error invalid_entity).
Proof.
  unfold constructor, normalized, resolved_name, resolved_val, supplied_name,
    supplied_val, declared_val, shadowed, and_then, or_else.
  rewrite !Get_member, !hasOwnProperty_own.
  generalize (VObject props); intros obj.
  cbn [mbind result_bind mret result_ret].
  destruct (ToBoolean (member obj "block")); cbn [negb]; [|done].
  destruct (ToBoolean (member obj "elem")).
  all: destruct (member obj "mod") as [| |[]|n| |s|m] eqn:Hm; cbn.
  all: case_truth; done.
Qed.

Lemma constructor_primitive (obj : value) :
  match obj with
  | VObject _ => True
  | VUndefined | VNull => constructor obj = Throw TypeError
  | _ => constructor obj = Throw (Error invalid_entity)
  end.
Proof. by destruct obj. Qed.

Lemma ToBoolean_false (v : value) :
  ToBoolean v = false ↔
  v = VUndefined ∨ v = VNull ∨ v = VBoolean false ∨ v = VNumber 0 ∨ v = VNaN
  ∨ v = VString "".
Proof.
  split.
  - destruct v as [| |[]|n| |s|m]; cbn; intros H; try discriminate; auto 10.
    + apply negb_false_iff, Z.eqb_eq in H. subst. auto 10.
    + apply negb_false_iff, String.eqb_eq in H. subst. auto 10.
  - intros [->|[->|[->|[->|[->| ->]]]]]; reflexivity.
Qed.

Lemma mod_truthy (this : BemEntityName) : ToBoolean (mod_ this) = true.
Proof.
  unfold mod_. cbv zeta.
  destruct (ToBoolean (default VUndefined (_obj this !! "mod"))) eqn:E;
    [exact E | reflexivity].
Qed.

Lemma naming_entity_total (this : BemEntityName) :
  naming_entity this = Ok (VObject (entity_tuple this)).
Proof.
  unfold naming_entity, entity_tuple.
  rewrite !(Get_truthy _ _ (mod_truthy this)).
  cbn [mbind result_bind mret result_ret].
  by repeat destruct (ToBoolean _).
Qed.

Lemma constructor_Ok (obj : value) (this : BemEntityName) :
  constructor obj = Ok this →
  ∃ props, obj = VObject props
    ∧ ToBoolean (member obj "block") = true
    ∧ this = mkBemEntityName (normalized obj) (VBoolean true) None None.
Proof.
  intros H. pose proof (constructor_primitive obj) as P.
  destruct obj as [| |b|n| |s|props]; try congruence.
  exists props. rewrite constructor_object in H.
  destruct (ToBoolean (member (VObject props) "block")); [|discriminate].
  destruct (_ && _); [discriminate|].
  split; [done|]. split; [done|]. congruence.
Qed.

(** The constructor succeeds on a truthy [block] unless a name has resolved
    and a call of [hasOwnProperty] is shadowed; it then throws a
    [TypeError]. *)
Lemma constructor_succeeds (props : gmap string value) :
  let obj := VObject props in
  ToBoolean (member obj "block") = true →
  ToBoolean (resolved_name obj) && shadowed obj = false →
  constructor obj
  = Ok (mkBemEntityName (normalized obj) (VBoolean true) None None).
Proof. intros obj Hb Hs. subst obj. by rewrite constructor_object, Hb, Hs. Qed.

Lemma unshadowed (obj : value) :
  own obj "hasOwnProperty" = false →
  own (member obj "mod") "hasOwnProperty" = false →
  shadowed obj = false.
Proof.
  intros H1 H2. unfold shadowed. rewrite H1, H2.
  by rewrite andb_false_r.
Qed.

Lemma normalized_block (obj : value) :
  normalized obj !! "block" = Some (member obj "block").
Proof.
  unfold normalized.
  by repeat destruct (ToBoolean _); simplify_map_eq.
Qed.

Lemma normalized_elem (obj : value) :
  normalized obj !! "elem" =
    if ToBoolean (member obj "elem") then Some (member obj "elem") else None.
Proof.
  unfold normalized.
  by repeat destruct (ToBoolean _); simplify_map_eq.
Qed.

Lemma normalized_mod (obj : value) :
  normalized obj !! "mod" =
    if ToBoolean (resolved_name obj)
    then Some (VObject {[ "name" := resolved_name obj;
                          "val" := resolved_val obj ]})
    else None.
Proof.
  unfold normalized.
  by repeat destruct (ToBoolean _); simplify_map_eq.
Qed.

Lemma normalized_keys (obj : value) (k : string) (v : value) :
  normalized obj !! k = Some v → k = "block" ∨ k = "elem" ∨ k = "mod".
Proof.
  unfold normalized.
  repeat destruct (ToBoolean _);
    rewrite ?lookup_insert_Some, lookup_singleton_Some; intuition auto.
Qed.

Lemma normalized_dom (obj : value) :
  dom (normalized obj) ⊆ ({[ "block"; "elem"; "mod" ]} : gset string).
Proof.
  intros k [v Hk]%elem_of_dom. apply normalized_keys in Hk.
  rewrite !elem_of_union, !elem_of_singleton. tauto.
Qed.

Lemma modName_normalized (obj : value) (a : value) (b c : option string) :
  ToBoolean (resolved_name obj) = true →
  modName (mkBemEntityName (normalized obj) a b c) = Ok (resolved_name obj).
Proof.
  intros Hn. unfold modName, mod_. cbn [_obj].
  by rewrite normalized_mod, Hn.
Qed.

Lemma modVal_normalized (obj : value) (a : value) (b c : option string) :
  ToBoolean (resolved_name obj) = true →
  modVal (mkBemEntityName (normalized obj) a b c) = Ok (resolved_val obj).
Proof.
  intros Hn. unfold modVal, mod_. cbn [_obj].
  by rewrite normalized_mod, Hn.
Qed.

(** ** The constructor *)



(** The part of the modifier value that the constructor gets right: a truthy
    [mod.val] is stored as it is. *)
Lemma truthy_val_verbatim (props m : gmap string value)
    (this : BemEntityName) :
  let obj := VObject props in
  props !! "mod" = Some (VObject m) →
  constructor obj = Ok this →
  ToBoolean (resolved_name obj) = true →
  ToBoolean (member (VObject m) "val") = true →
  modVal this = Ok (member (VObject m) "val").
Proof.
  intros obj Hm (? & _ & Hb & ->)%constructor_Ok Hn Hv.
  assert (member obj "mod" = VObject m) as Hmod.
  { unfold obj, member. by rewrite Hm. }
  rewrite modVal_normalized by done. fold obj.
  unfold resolved_val, declared_val, supplied_val. rewrite !Hmod.
  cbn [ToBoolean]. rewrite Hv.
  assert (own (VObject m) "val" = true) as ->.
  { unfold own, member in *. by destruct (m !! "val"). }
  by rewrite orb_true_r.
Qed.

(** The part it gets wrong: an own but falsy [mod.val] is replaced by the
    input's [modVal], which reads [undefined] when absent. *)
Lemma falsy_val_replaced (props m : gmap string value)
    (this : BemEntityName) :
  let obj := VObject props in
  props !! "mod" = Some (VObject m) →
  constructor obj = Ok this →
  ToBoolean (resolved_name obj) = true →
  is_Some (m !! "val") →
  ToBoolean (member (VObject m) "val") = false →
  modVal this = Ok (member obj "modVal").
Proof.
  intros obj Hm (? & _ & Hb & ->)%constructor_Ok Hn [v Hv] Hf.
  assert (member obj "mod" = VObject m) as Hmod.
  { unfold obj, member. by rewrite Hm. }
  rewrite modVal_normalized by done. fold obj.
  unfold resolved_val, declared_val, supplied_val. rewrite !Hmod.
  cbn [ToBoolean]. rewrite Hf.
  assert (own (VObject m) "val" = true) as -> by (unfold own; by rewrite Hv).
  by rewrite orb_true_r.
Qed.

(** C2, evaluated. The constructor reads [mod.val || modVal]: the explicit
    empty [val] of [{block:'b', mod:{name:'m', val:''}}] is lost and the
    entity's [mod.val] is [undefined], whereas the same empty value given as
    [modVal] in [{block:'b', modName:'m', modVal:''}] is kept. *)
Theorem explicit_empty_val_is_dropped :
  (∃ this,
     constructor (VObject {[ "block" := VString "b";
                             "mod" := VObject {[ "name" := VString "m";
                                                 "val" := VString "" ]} ]})
       = Ok this
     ∧ modName this = Ok (VString "m")
     ∧ modVal this = Ok VUndefined)
  ∧ (∃ this,
     constructor (VObject {[ "block" := VString "b";
                             "modName" := VString "m";
                             "modVal" := VString "" ]})
       = Ok this
     ∧ modName this = Ok (VString "m")
     ∧ modVal this = Ok (VString "")).
Proof. split; eexists; (split; [vm_compute; reflexivity|]); by vm_compute. Qed.

(** C3, as stated, fails. [{block:'b', mod:{name:'', val:'v'},
    modName:'x', modVal:'y'}] supplies [mod.name], and the entity's name is
    the deprecated ['x']; [{block:'b', mod:{name:'m', val:''}, modName:'x',
    modVal:'y'}] supplies [mod.val], and the entity's value is the
    deprecated ['y']. *)
Lemma mod_precedence_counterexample :
  (∃ this,
     constructor (VObject {[ "block" := VString "b";
                             "mod" := VObject {[ "name" := VString "";
                                                 "val" := VString "v" ]};
                             "modName" := VString "x";
                             "modVal" := VString "y" ]})
       = Ok this
     ∧ modName this = Ok (VString "x")
     ∧ modName this ≠ Ok (VString "")
     ∧ modVal this = Ok (VString "v"))
  ∧ (∃ this,
     constructor (VObject {[ "block" := VString "b";
                             "mod" := VObject {[ "name" := VString "m";
                                                 "val" := VString "" ]};
                             "modName" := VString "x";
                             "modVal" := VString "y" ]})
       = Ok this
     ∧ modName this = Ok (VString "m")
     ∧ modVal this = Ok (VString "y")
     ∧ modVal this ≠ Ok (VString "")).
Proof.
  split; eexists; (split; [vm_compute; reflexivity|]);
    (split; [by vm_compute|]); (split; by vm_compute).
Qed.

(** C3, amended. When [mod] is an object, a truthy [mod.name] is the
    entity's modifier name whatever [modName] holds, and with it a truthy
    [mod.val] is the entity's modifier value whatever [modVal] holds; the
    deprecated [modName] names the modifier only when [mod.name] is
    falsy. This holds of every entity the constructor returns, and it
    returns one when [block] is truthy and neither the input nor [mod] has
    an own [hasOwnProperty]. *)
Theorem mod_precedence (props m : gmap string value) :
  let obj := VObject props in
  props !! "mod" = Some (VObject m) →
  (∀ this, constructor obj = Ok this →
     (ToBoolean (member (VObject m) "name") = true →
      modName this = Ok (member (VObject m) "name")
      ∧ (ToBoolean (member (VObject m) "val") = true →
         mod_ this = VObject {[ "name" := member (VObject m) "name";
                                "val" := member (VObject m) "val" ]}))
     ∧ (ToBoolean (member (VObject m) "name") = false →
        ToBoolean (member obj "modName") = true →
        modName this = Ok (member obj "modName")))
  ∧ (ToBoolean (member obj "block") = true →
     own obj "hasOwnProperty" = false →
     own (VObject m) "hasOwnProperty" = false →
     ∃ this, constructor obj = Ok this).
Proof.
  intros obj Hm.
  assert (member obj "mod" = VObject m) as Hmod.
  { unfold obj, member. by rewrite Hm. }
  split.
  - intros this (? & _ & Hb & ->)%constructor_Ok.
    unfold modName, mod_. cbn [_obj]. fold obj. rewrite normalized_mod.
    unfold resolved_name, supplied_name, resolved_val, declared_val,
      supplied_val. rewrite !Hmod. cbn [typeof ToBoolean].
    change (String.eqb "object" "string") with false. cbv iota.
    split.
    + intros Hn. rewrite !Hn. cbn. split; [done|].
      intros Hv. rewrite Hv.
      destruct (m !! "val"); [|discriminate]. by rewrite orb_true_r.
    + intros Hn Hl. rewrite !Hn, !Hl. by cbn.
  - intros Hb H1 H2. eexists. apply constructor_succeeds; [done|].
    fold obj. rewrite <- Hmod in H2.
    by rewrite (unshadowed obj H1 H2), andb_false_r.
Qed.

Lemma mod_precedence_witness :
  ∃ this,
    constructor (VObject {[ "block" := VString "b";
                            "mod" := VObject {[ "name" := VString "m";
                                                "val" := VString "v" ]};
                            "modName" := VString "x";
                            "modVal" := VString "y" ]})
      = Ok this
    ∧ modName this = Ok (VString "m")
    ∧ mod_ this = VObject {[ "name" := VString "m"; "val" := VString "v" ]}.
Proof.
  destruct (mod_precedence
              {[ "block" := VString "b";
                 "mod" := VObject {[ "name" := VString "m";
                                     "val" := VString "v" ]};
                 "modName" := VString "x";
                 "modVal" := VString "y" ]}
              {[ "name" := VString "m"; "val" := VString "v" ]})
    as (Hall & Hex); [reflexivity|].
  destruct (Hex eq_refl eq_refl eq_refl) as [this Hc].
  exists this. split; [exact Hc|].
  destruct (Hall this Hc) as [Ht _].
  destruct (Ht eq_refl) as [Hn Hv]. split; [exact Hn | exact (Hv eq_refl)].
Defined.


(** What the [elem] getter returns, for every input. *)
Lemma elem_getter (props : gmap string value) (this : BemEntityName) :
  let obj := VObject props in
  constructor obj = Ok this →
  elem this =
    if ToBoolean (member obj "elem") then member obj "elem" else VUndefined.
Proof.
  intros obj H. apply constructor_Ok in H as (? & _ & _ & ->).
  unfold elem. cbn [_obj]. rewrite normalized_elem.
  by destruct (ToBoolean _).
Qed.

(** C4, evaluated. For [{block:'button'}], an input without element, the
    [elem] getter returns [undefined], not the empty string that its
    documentation promises. *)
Theorem elem_absent_is_undefined :
  ∃ this, constructor (VObject {[ "block" := VString "button" ]}) = Ok this
    ∧ elem this = VUndefined
    ∧ elem this ≠ VString "".
Proof. eexists. split; [vm_compute; reflexivity|]. by vm_compute. Qed.

(** C5, as stated, fails: [{block:'b', modName:'m', modVal:undefined}]
    declares a value property, so no default applies, and the entity has a
    modifier whose [val] is [undefined]. *)
Lemma mod_val_absent_counterexample :
  ∃ this,
    constructor (VObject {[ "block" := VString "b";
                            "modName" := VString "m";
                            "modVal" := VUndefined ]})
      = Ok this
    ∧ _obj this !! "mod"
        = Some (VObject {[ "name" := VString "m"; "val" := VUndefined ]})
    ∧ modVal this = Ok VUndefined.
Proof.
  eexists. split; [vm_compute; reflexivity|]. split; by vm_compute.
Qed.

(** C5, amended. The entity has the field [mod] exactly when a modifier
    name resolved: from the string [mod], from a truthy [mod.name], or from
    a truthy [modName]. Its [val] is then [true] when no value property is
    declared (no own [modVal] on the input, no own [val] on [mod]), is
    [mod.val] when that is truthy, and is the input's [modVal] when only
    that is declared. *)
Theorem mod_presence (props : gmap string value) (this : BemEntityName) :
  let obj := VObject props in
  let m := member obj "mod" in
  constructor obj = Ok this →
  (is_Some (_obj this !! "mod") ↔ ToBoolean (resolved_name obj) = true)
  ∧ (ToBoolean (resolved_name obj) = true ↔
     (∃ s, m = VString s ∧ s ≠ "")
     ∨ (typeof m ≠ "string" ∧ ToBoolean m = true
        ∧ ToBoolean (member m "name") = true)
     ∨ ToBoolean (member obj "modName") = true)
  ∧ (ToBoolean (resolved_name obj) = true →
     modName this = Ok (resolved_name obj)
     ∧ (own obj "modVal" = false → own m "val" = false →
        modVal this = Ok (VBoolean true))
     ∧ (ToBoolean (member m "val") = true →
        modVal this = Ok (member m "val"))
     ∧ (own obj "modVal" = true → own m "val" = false →
        modVal this = Ok (member obj "modVal"))).
Proof.
  intros obj m H. apply constructor_Ok in H as (? & _ & _ & ->).
  split; [|split].
  - cbn [_obj]. rewrite normalized_mod.
    destruct (ToBoolean (resolved_name obj)); split; intros Hs; done.
  - unfold resolved_name, supplied_name. fold m. clearbody m.
    destruct m as [| |[]|n| |s|o]; cbn.
    all: try (split; [intros ?; by do 2 right | intros [(?&?&?)|[(?&?&?)|?]]; done]).
    + destruct (n =? 0)%Z eqn:Hz; cbn; rewrite ?Hz; cbn.
      all: split; [intros ?; by do 2 right | intros [(?&?&?)|[(?&?&?)|?]]; done].
    + destruct (String.eqb s "") eqn:Hs; cbn; rewrite ?Hs; cbn.
      * apply String.eqb_eq in Hs. subst.
        split; [intros ?; by do 2 right|].
        intros [(?&?&?)|[(?&?&?)|?]]; [congruence|done|done].
      * apply String.eqb_neq in Hs.
        split; [intros _; left; by exists s | done].
    + destruct (ToBoolean (default VUndefined (o !! "name"))) eqn:Hn.
      * rewrite Hn. split; [intros _; right; by left | done].
      * split; [intros ?; by do 2 right | intros [(?&?&?)|[(?&?&?)|?]]; done].
  - intros Hn. rewrite modName_normalized, modVal_normalized by done.
    unfold resolved_val, declared_val, supplied_val. fold m.
    generalize (own obj "modVal") (member obj "modVal"). clearbody m.
    intros d v. split; [done|]. split; [|split].
    + intros -> ->. by rewrite andb_false_r.
    + intros Hv.
      assert (ToBoolean m = true) as Hm by (by destruct m).
      assert (own m "val" = true) as Ho.
      { destruct m; try done. unfold own, member in *.
        by destruct (_ !! "val"). }
      by rewrite Hm, Ho, Hv, orb_true_r.
    + intros -> Ho. cbn.
      assert (ToBoolean (if ToBoolean m then member m "val" else m) = false)
        as ->; [|done].
      destruct (ToBoolean m) eqn:Hm; [|done].
      destruct m; try done. unfold own, member in *.
      by destruct (_ !! "val").
Qed.

Lemma mod_presence_witness :
  ∃ this,
    constructor (VObject {[ "block" := VString "b"; "mod" := VString "m" ]})
      = Ok this
    ∧ is_Some (_obj this !! "mod")
    ∧ modName this = Ok (VString "m")
    ∧ modVal this = Ok (VBoolean true).
Proof.
  set (props := {[ "block" := VString "b"; "mod" := VString "m" ]}
         : gmap string value).
  assert (∃ this, constructor (VObject props) = Ok this) as [this Hc].
  { eexists. vm_compute. reflexivity. }
  exists this. split; [exact Hc|].
  destruct (mod_presence props this Hc) as (Hp & _ & Hv).
  assert (ToBoolean (resolved_name (VObject props)) = true) as Hn
    by (vm_compute; reflexivity).
  split; [exact (proj2 Hp Hn)|].
  destruct (Hv Hn) as (Hname & Htrue & _).
  split; [exact Hname|]. apply Htrue; vm_compute; reflexivity.
Defined.

(** C6. The three input shapes of a modifier: [{block:'b', mod:'m'}] gives
    [mod = {name:'m', val:true}], [{block:'b', mod:{name:'m', val:'v'}}]
    gives [mod = {name:'m', val:'v'}], and the legacy
    [{block:'b', modName:'m', modVal:'v'}] gives [mod = {name:'m', val:'v'}]. *)
Theorem modifier_shapes :
  (∃ this,
     constructor (VObject {[ "block" := VString "b"; "mod" := VString "m" ]})
       = Ok this
     ∧ mod_ this = VObject {[ "name" := VString "m"; "val" := VBoolean true ]})
  ∧ (∃ this,
     constructor (VObject {[ "block" := VString "b";
                             "mod" := VObject {[ "name" := VString "m";
                                                 "val" := VString "v" ]} ]})
       = Ok this
     ∧ mod_ this = VObject {[ "name" := VString "m"; "val" := VString "v" ]})
  ∧ (∃ this,
     constructor (VObject {[ "block" := VString "b";
                             "modName" := VString "m";
                             "modVal" := VString "v" ]})
       = Ok this
     ∧ mod_ this = VObject {[ "name" := VString "m"; "val" := VString "v" ]}).
Proof.
  repeat split; eexists; (split; [vm_compute; reflexivity|]);
    vm_compute; reflexivity.
Qed.

(** C9. The object [valueOf] returns, which [inspect] hands to
    [util.inspect], has no key outside [block], [elem], [mod]: neither the
    deprecated [modName] and [modVal] nor a private field. [block] is
    always there, [elem] exactly when the input has a truthy [elem], [mod]
    exactly when a modifier name resolved. *)
Theorem valueOf_keys (props : gmap string value) (this : BemEntityName) :
  let obj := VObject props in
  constructor obj = Ok this →
  ∃ o : gmap string value,
    valueOf this = VObject o
    ∧ (∀ util_inspect depth options,
         inspect util_inspect this depth options
         = "BemEntityName " ++ util_inspect (VObject o) options)
    ∧ dom o ⊆ {[ "block"; "elem"; "mod" ]}
    ∧ ("block" ∈ dom o)
    ∧ (("elem" ∈ dom o) ↔ (ToBoolean (member obj "elem") = true))
    ∧ (("mod" ∈ dom o) ↔ (ToBoolean (resolved_name obj) = true))
    ∧ ("modName" ∉ dom o) ∧ ("modVal" ∉ dom o)
    ∧ ("_isEntity" ∉ dom o) ∧ ("_id" ∉ dom o) ∧ ("_type" ∉ dom o).
Proof.
  intros obj H. apply constructor_Ok in H as (? & _ & _ & ->).
  exists (normalized obj). split; [done|]. split; [done|].
  pose proof (normalized_dom obj) as Hd.
  split; [done|]. rewrite !elem_of_dom.
  rewrite normalized_block, normalized_elem, normalized_mod.
  split; [done|].
  split; [by destruct (ToBoolean (member obj "elem"))|].
  split; [by destruct (ToBoolean (resolved_name obj))|].
  repeat split; intros [v Hk]; by destruct (normalized_keys _ _ _ Hk) as [?|[?|?]].
Qed.



(** ** Instances in reachable heaps *)

Section Heap.

Variable stringifyEntity : value → string.
Variable typeOfEntity : value → string.

Lemma cached_Some (c : option string) (s : string) :
  cached c = Some s → c = Some s.
Proof.
  destruct c as [t|]; [|done]. unfold cached.
  by destruct (ToBoolean (VString t)); intros [= ->].
Qed.

Lemma id_eval (l : loc) (h : heap) (e : BemEntityName) :
  h !! l = Some e →
  id stringifyEntity l h =
    match cached (_id e) with
    | Some s => (Ok s, h)
    | None =>
        (Ok (id_value stringifyEntity e),
         <[ l := mkBemEntityName (_obj e) (_isEntity e)
                   (Some (id_value stringifyEntity e)) (_type e) ]> h)
    end.
Proof.
  intros H. unfold id, deref, assign, lift.
  unfold mbind, M_bind, mret, M_ret. rewrite H.
  destruct (cached (_id e)); [done|]. by rewrite naming_entity_total.
Qed.

Lemma type_eval (l : loc) (h : heap) (e : BemEntityName) :
  h !! l = Some e →
  type typeOfEntity l h =
    match cached (_type e) with
    | Some s => (Ok s, h)
    | None =>
        let s := typeOfEntity (VObject (entity_tuple e)) in
        (Ok s, <[ l := mkBemEntityName (_obj e) (_isEntity e) (_id e) (Some s) ]> h)
    end.
Proof.
  intros H. unfold type, deref, assign, lift.
  unfold mbind, M_bind, mret, M_ret. rewrite H.
  destruct (cached (_type e)); [done|]. by rewrite naming_entity_total.
Qed.

Lemma id_dangling (l : loc) (h : heap) :
  h !! l = None → id stringifyEntity l h = (Throw TypeError, h).
Proof. intros H. unfold id, deref, mbind, M_bind. by rewrite H. Qed.

Lemma type_dangling (l : loc) (h : heap) :
  h !! l = None → type typeOfEntity l h = (Throw TypeError, h).
Proof. intros H. unfold type, deref, mbind, M_bind. by rewrite H. Qed.

Lemma entity_tuple_obj (e e' : BemEntityName) :
  _obj e' = _obj e → entity_tuple e' = entity_tuple e.
Proof.
  intros H. unfold entity_tuple, block, elem, mod_. by rewrite H.
Qed.

Lemma id_value_obj (e e' : BemEntityName) :
  _obj e' = _obj e → id_value stringifyEntity e' = id_value stringifyEntity e.
Proof. intros H. unfold id_value. by rewrite (entity_tuple_obj e e' H). Qed.

Lemma same_entities_refl (h : heap) : same_entities h h.
Proof.
  apply Forall2_same_length_lookup_2; [done|].
  by intros i x y -> [= ->].
Qed.

Lemma same_entities_trans (h1 h2 h3 : heap) :
  same_entities h1 h2 → same_entities h2 h3 → same_entities h1 h3.
Proof.
  unfold same_entities. intros H12 H23.
  eapply Forall2_trans; [|exact H12|exact H23].
  intros x y z [-> ->] [-> ->]. done.
Qed.

Lemma same_entities_lookup (h h' : heap) (l : loc) (e : BemEntityName) :
  same_entities h h' → h !! l = Some e →
  ∃ e', h' !! l = Some e' ∧ _obj e' = _obj e ∧ _isEntity e' = _isEntity e.
Proof.
  intros H He. destruct (Forall2_lookup_l _ _ _ _ _ H He) as (e' & He' & Ho & Hi).
  by exists e'.
Qed.

Lemma same_entities_insert (h : heap) (l : loc) (e e' : BemEntityName) :
  h !! l = Some e → _obj e' = _obj e → _isEntity e' = _isEntity e →
  same_entities h (<[ l := e' ]> h).
Proof.
  intros He Ho Hi. unfold same_entities.
  rewrite <- (list_insert_id h l e He) at 1.
  apply Forall2_insert; [apply same_entities_refl | done].
Qed.

Lemma instance_ok_new (obj : value) (e : BemEntityName) :
  constructor obj = Ok e → instance_ok stringifyEntity typeOfEntity e.
Proof.
  intros H. pose proof H as (props & -> & _ & ->)%constructor_Ok.
  split; [by exists (VObject props)|]. by repeat split.
Qed.

Lemma heap_ok_new (obj : value) (h : heap) :
  heap_ok stringifyEntity typeOfEntity h →
  heap_ok stringifyEntity typeOfEntity (new_BemEntityName obj h).2.
Proof.
  intros H. unfold new_BemEntityName.
  destruct (constructor obj) as [e|x] eqn:Hc; [|done].
  apply Forall_app. split; [done|].
  apply Forall_singleton. by eapply instance_ok_new.
Qed.

(** On a heap that satisfies the invariant, [id] returns the canonical key
    and leaves a heap that satisfies it, with the same instances. *)
Lemma id_ok (l : loc) (h : heap) (e : BemEntityName) :
  heap_ok stringifyEntity typeOfEntity h → h !! l = Some e →
  ∃ h', id stringifyEntity l h = (Ok (id_value stringifyEntity e), h')
    ∧ heap_ok stringifyEntity typeOfEntity h'
    ∧ same_entities h h'.
Proof.
  intros Hh He. rewrite (id_eval l h e He).
  pose proof (Forall_lookup_1 _ _ _ _ Hh He) as (Hc & Hi & Hid & Hty).
  destruct (cached (_id e)) as [s|] eqn:Hs.
  - apply cached_Some in Hs. rewrite (Hid s Hs).
    exists h. split; [done|]. split; [done | apply same_entities_refl].
  - eexists. split; [done|]. split.
    + apply Forall_insert; [done|].
      split; [exact Hc|]. split; [exact Hi|]. split; [|exact Hty].
      by intros s [= <-].
    + by eapply same_entities_insert.
Qed.

Lemma type_ok (l : loc) (h : heap) (e : BemEntityName) :
  heap_ok stringifyEntity typeOfEntity h → h !! l = Some e →
  ∃ h', type typeOfEntity l h = (Ok (typeOfEntity (VObject (entity_tuple e))), h')
    ∧ heap_ok stringifyEntity typeOfEntity h'
    ∧ same_entities h h'.
Proof.
  intros Hh He. rewrite (type_eval l h e He).
  pose proof (Forall_lookup_1 _ _ _ _ Hh He) as (Hc & Hi & Hid & Hty).
  destruct (cached (_type e)) as [s|] eqn:Hs.
  - apply cached_Some in Hs. rewrite (Hty s Hs).
    exists h. split; [done|]. split; [done | apply same_entities_refl].
  - eexists. split; [done|]. split.
    + apply Forall_insert; [done|].
      split; [exact Hc|]. split; [exact Hi|]. split; [exact Hid|].
      by intros s [= <-].
    + by eapply same_entities_insert.
Qed.

Lemma heap_ok_id (l : loc) (h : heap) :
  heap_ok stringifyEntity typeOfEntity h →
  heap_ok stringifyEntity typeOfEntity (id stringifyEntity l h).2.
Proof.
  intros Hh. destruct (h !! l) as [e|] eqn:He.
  - destruct (id_ok l h e Hh He) as (h' & -> & Hh' & _). done.
  - by rewrite id_dangling.
Qed.

Lemma heap_ok_type (l : loc) (h : heap) :
  heap_ok stringifyEntity typeOfEntity h →
  heap_ok stringifyEntity typeOfEntity (type typeOfEntity l h).2.
Proof.
  intros Hh. destruct (h !! l) as [e|] eqn:He.
  - destruct (type_ok l h e Hh He) as (h' & -> & Hh' & _). done.
  - by rewrite type_dangling.
Qed.

Lemma isEqual_falsy (l : loc) (v : value) (h : heap) :
  ToBoolean v = false → isEqual stringifyEntity l (Data v) h = (Ok v, h).
Proof. intros H. unfold isEqual. by rewrite H. Qed.

Lemma isEqual_data (l : loc) (v : value) (h : heap) (e : BemEntityName) :
  heap_ok stringifyEntity typeOfEntity h → h !! l = Some e →
  ToBoolean v = true →
  ∃ h', isEqual stringifyEntity l (Data v) h
        = (Ok (VBoolean (strict_equals (id_value stringifyEntity e)
                           (member v "id"))), h')
    ∧ heap_ok stringifyEntity typeOfEntity h'
    ∧ same_entities h h'.
Proof.
  intros Hh He Hv. destruct (id_ok l h e Hh He) as (h' & Hid & Hh' & Hs).
  exists h'. split; [|done].
  unfold isEqual, id_of, lift. rewrite Hv.
  unfold mbind, M_bind, mret, M_ret. rewrite Hid.
  by rewrite (Get_truthy v "id" Hv).
Qed.

Lemma isEqual_instance (l l' : loc) (h : heap) (e e' : BemEntityName) :
  heap_ok stringifyEntity typeOfEntity h →
  h !! l = Some e → h !! l' = Some e' →
  ∃ h', isEqual stringifyEntity l (Instance l') h
        = (Ok (VBoolean (String.eqb (id_value stringifyEntity e)
                           (id_value stringifyEntity e'))), h')
    ∧ heap_ok stringifyEntity typeOfEntity h'
    ∧ same_entities h h'.
Proof.
  intros Hh He He'. destruct (id_ok l h e Hh He) as (h1 & Hid & Hh1 & Hs1).
  destruct (same_entities_lookup h h1 l' e' Hs1 He') as (e1 & He1 & Ho & _).
  destruct (id_ok l' h1 e1 Hh1 He1) as (h2 & Hid' & Hh2 & Hs2).
  exists h2. split; [|split; [done|by eapply same_entities_trans]].
  unfold isEqual, id_of. unfold mbind, M_bind, mret, M_ret.
  rewrite Hid, Hid'. by rewrite (id_value_obj e' e1 Ho).
Qed.

Lemma heap_ok_isEqual (l : loc) (entity : operand) (h : heap) :
  heap_ok stringifyEntity typeOfEntity h →
  heap_ok stringifyEntity typeOfEntity (isEqual stringifyEntity l entity h).2.
Proof.
  intros Hh.
  assert (∀ entity, heap_ok stringifyEntity typeOfEntity
     ((a ← id stringifyEntity l; b ← id_of stringifyEntity entity;
       mret (VBoolean (strict_equals a b))) h).2) as Hcmp.
  { clear entity. intros entity. unfold mbind, M_bind, mret, M_ret.
    pose proof (heap_ok_id l h Hh) as H1.
    destruct (id stringifyEntity l h) as [[a|x] h1]; [|done].
    destruct entity as [v|l']; cbn [id_of lift].
    - by destruct (Get v "id").
    - pose proof (heap_ok_id l' h1 H1) as H2. unfold mbind, M_bind.
      by destruct (id stringifyEntity l' h1) as [[b|y] h2]. }
  unfold isEqual. destruct entity as [v|l']; [|apply Hcmp].
  destruct (ToBoolean v); [apply Hcmp | done].
Qed.

(** Every reachable heap satisfies the invariant. *)
Lemma reachable_ok (h : heap) :
  reachable stringifyEntity typeOfEntity h →
  heap_ok stringifyEntity typeOfEntity h.
Proof.
  induction 1 as [|obj h _ IH|l h _ IH|l h _ IH|l h _ IH|l entity h _ IH].
  - constructor.
  - by apply heap_ok_new.
  - by apply heap_ok_id.
  - by apply heap_ok_type.
  - by apply heap_ok_id.
  - by apply heap_ok_isEqual.
Qed.

(** C8. In every reachable heap, [toString()] and the getter [id] of an
    instance return the same string: what [stringifyEntity] answers for the
    tuple [{block, elem?, modName?, modVal?}] that leaves out a falsy
    [elem], [modName], [modVal]. A second call returns it again. *)
Theorem toString_is_id (h : heap) (l : loc) (this : BemEntityName) :
  reachable stringifyEntity typeOfEntity h →
  h !! l = Some this →
  let s := stringifyEntity (VObject (entity_tuple this)) in
  naming_entity this = Ok (VObject (entity_tuple this))
  ∧ ∃ h', id stringifyEntity l h = (Ok s, h')
      ∧ toString stringifyEntity l h = (Ok s, h')
      ∧ (toString stringifyEntity l h').1 = Ok s
      ∧ (id stringifyEntity l h').1 = Ok s.
Proof.
  intros Hr He s. split; [apply naming_entity_total|].
  apply reachable_ok in Hr.
  destruct (id_ok l h this Hr He) as (h' & Hid & Hh' & Hs).
  exists h'. split; [exact Hid|]. split; [exact Hid|].
  destruct (same_entities_lookup h h' l this Hs He) as (e' & He' & Ho & _).
  destruct (id_ok l h' e' Hh' He') as (h'' & Hid' & _).
  unfold toString. rewrite Hid'. cbn [fst].
  by rewrite (id_value_obj this e' Ho).
Qed.

(** X13. In every reachable heap, [isEqual] between two instances returns
    [true] exactly when their [id]s are the same string, so an instance
    equals itself and two instances with the same tuple are equal; on a
    data value it returns [true] exactly when the value is neither [null]
    nor [undefined] and its [id] is this instance's [id]. A falsy argument
    never yields [true]: the body returns it as it is. *)
Theorem isEqual_by_id (h : heap) (l : loc) (this : BemEntityName) :
  reachable stringifyEntity typeOfEntity h →
  h !! l = Some this →
  (id stringifyEntity l h).1 = Ok (id_value stringifyEntity this)
  ∧ (∀ l' other, h !! l' = Some other →
       (isEqual stringifyEntity l (Instance l') h).1
       = Ok (VBoolean (String.eqb (id_value stringifyEntity this)
                         (id_value stringifyEntity other)))
       ∧ ((isEqual stringifyEntity l (Instance l') h).1 = Ok (VBoolean true)
          ↔ id_value stringifyEntity other = id_value stringifyEntity this)
       ∧ (entity_tuple other = entity_tuple this →
          (isEqual stringifyEntity l (Instance l') h).1 = Ok (VBoolean true)))
  ∧ (isEqual stringifyEntity l (Instance l) h).1 = Ok (VBoolean true)
  ∧ (∀ v, (isEqual stringifyEntity l (Data v) h).1 = Ok (VBoolean true)
          ↔ v ≠ VNull ∧ v ≠ VUndefined
            ∧ Get v "id" = Ok (VString (id_value stringifyEntity this)))
  ∧ isEqual stringifyEntity l (Data VNull) h = (Ok VNull, h)
  ∧ isEqual stringifyEntity l (Data VUndefined) h = (Ok VUndefined, h)
  ∧ (∀ v, ToBoolean v = false →
          isEqual stringifyEntity l (Data v) h = (Ok v, h)
          ∧ v ≠ VBoolean true).
Proof.
  intros Hr He. apply reachable_ok in Hr.
  assert (∀ l' other, h !! l' = Some other →
       (isEqual stringifyEntity l (Instance l') h).1
       = Ok (VBoolean (String.eqb (id_value stringifyEntity this)
                         (id_value stringifyEntity other)))) as Hinst.
  { intros l' other Ho.
    destruct (isEqual_instance l l' h this other Hr He Ho) as (h' & -> & _).
    done. }
  split; [|split; [|split; [|split; [|split; [|split]]]]].
  - by destruct (id_ok l h this Hr He) as (h' & -> & _).
  - intros l' other Ho. rewrite (Hinst l' other Ho).
    split; [done|]. split; [split|].
    + intros [= Heq]. symmetry. by apply String.eqb_eq.
    + intros ->. by rewrite String.eqb_refl.
    + intros Ht. unfold id_value. by rewrite Ht, String.eqb_refl.
  - rewrite (Hinst l this He). by rewrite String.eqb_refl.
  - intros v. destruct (ToBoolean v) eqn:Hv.
    + destruct (isEqual_data l v h this Hr He Hv) as (h' & -> & _).
      cbn [fst]. rewrite (Get_truthy v "id" Hv). split.
      * intros [= Hs]. split; [by destruct v|]. split; [by destruct v|].
        destruct (member v "id"); try done. cbn in Hs.
        apply String.eqb_eq in Hs. by subst.
      * intros (_ & _ & [= ->]). cbn. by rewrite String.eqb_refl.
    + rewrite (isEqual_falsy l v h Hv). cbn [fst]. split.
      * intros [= ->]. done.
      * intros (Hn & Hu & Hg). by destruct v.
  - by apply isEqual_falsy.
  - by apply isEqual_falsy.
  - intros v Hv. split; [by apply isEqual_falsy|]. by intros ->.
Qed.

(** C10. [isBemEntity] returns [true] for the instance the constructor has
    just built and for every instance of a reachable heap; on [null] and on
    [undefined] the property read throws a [TypeError] and nothing is
    returned. *)
Theorem isBemEntity_marker :
  (∀ obj h l h', new_BemEntityName obj h = (Ok l, h') →
     isBemEntity (Instance l) h' = (Ok (VBoolean true), h'))
  ∧ (∀ h l this, reachable stringifyEntity typeOfEntity h →
       h !! l = Some this →
       isBemEntity (Instance l) h = (Ok (VBoolean true), h))
  ∧ (∀ h, isBemEntity (Data VNull) h = (Throw TypeError, h))
  ∧ (∀ h, isBemEntity (Data VUndefined) h = (Throw TypeError, h)).
Proof.
  split; [|split; [|split]]; try done.
  - intros obj h l h'. unfold new_BemEntityName.
    destruct (constructor obj) as [e|x] eqn:Hc; [|done].
    intros [= <- <-]. apply constructor_Ok in Hc as (props & _ & _ & ->).
    unfold isBemEntity, deref, mbind, M_bind, mret, M_ret, heap.
    by rewrite lookup_app_r, Nat.sub_diag.
  - intros h l this Hr He. apply reachable_ok in Hr.
    pose proof (Forall_lookup_1 _ _ _ _ Hr He) as (_ & Hi & _).
    unfold isBemEntity, deref, mbind, M_bind, mret, M_ret.
    by rewrite He, Hi.
Qed.

End Heap.

(** ** The theorems at concrete inputs *)

Lemma valueOf_keys_witness :
  ∃ this o,
    constructor (VObject {[ "block" := VString "b"; "elem" := VString "e";
                            "modName" := VString "m" ]}) = Ok this
    ∧ valueOf this = VObject o
    ∧ dom o ⊆ {[ "block"; "elem"; "mod" ]}.
Proof.
  set (props := {[ "block" := VString "b"; "elem" := VString "e";
                   "modName" := VString "m" ]} : gmap string value).
  assert (∃ this, constructor (VObject props) = Ok this) as [this Hc].
  { eexists. vm_compute. reflexivity. }
  destruct (valueOf_keys props this Hc) as (o & Hv & _ & Hd & _).
  exists this, o. split; [exact Hc|]. split; [exact Hv | exact Hd].
Defined.

Lemma toString_is_id_witness :
  (toString sample_stringify 0 menu_heap).1 = Ok "menu__item_current"
  ∧ (id sample_stringify 0 menu_heap).1 = Ok "menu__item_current".
Proof.
  set (this := mkBemEntityName
                 (normalized
                    (VObject {[ "block" := VString "menu";
                                "elem" := VString "item";
                                "mod" := VString "current" ]}))
                 (VBoolean true) None None).
  assert (reachable sample_stringify sample_typeOf menu_heap) as Hr
    by apply reachable_new, reachable_nil.
  assert (menu_heap !! 0 = Some this) as He by (vm_compute; reflexivity).
  destruct (toString_is_id sample_stringify sample_typeOf menu_heap 0 this
              Hr He) as (_ & h' & Hid & Hts & _).
  rewrite Hts, Hid. split; vm_compute; reflexivity.
Defined.

(** C7, evaluated. Compared against [null], the instance built from
    [{block:'b'}] returns [null], which is not the boolean [false] that the
    claim and the method's own documentation promise; against [undefined]
    it returns [undefined]. *)
Theorem isEqual_null_is_null :
  isEqual sample_stringify 0 (Data VNull) block_heap = (Ok VNull, block_heap)
  ∧ isEqual sample_stringify 0 (Data VUndefined) block_heap
    = (Ok VUndefined, block_heap)
  ∧ (isEqual sample_stringify 0 (Data VNull) block_heap).1
    ≠ Ok (VBoolean false).
Proof. split; [done|]. split; [done|]. by vm_compute. Qed.

Lemma isEqual_by_id_witness :
  (isEqual sample_stringify 0 (Instance 0) shapes_heap).1 = Ok (VBoolean true)
  ∧ (isEqual sample_stringify 0 (Instance 1) shapes_heap).1
    = Ok (VBoolean true)
  ∧ (isEqual sample_stringify 0 (Instance 2) shapes_heap).1
    = Ok (VBoolean false)
  ∧ isEqual sample_stringify 0 (Data VNull) shapes_heap
    = (Ok VNull, shapes_heap).
Proof.
  set (this := mkBemEntityName
                 (normalized
                    (VObject {[ "block" := VString "b";
                                "mod" := VString "m" ]}))
                 (VBoolean true) None None).
  set (legacy := mkBemEntityName
                   (normalized
                      (VObject {[ "block" := VString "b";
                                  "modName" := VString "m" ]}))
                   (VBoolean true) None None).
  set (element := mkBemEntityName
                    (normalized
                       (VObject {[ "block" := VString "b";
                                   "elem" := VString "e" ]}))
                    (VBoolean true) None None).
  assert (reachable sample_stringify sample_typeOf shapes_heap) as Hr
    by apply reachable_new, reachable_new, reachable_new, reachable_nil.
  assert (shapes_heap !! 0 = Some this) as He by (vm_compute; reflexivity).
  assert (shapes_heap !! 1 = Some legacy) as Hl by (vm_compute; reflexivity).
  assert (shapes_heap !! 2 = Some element) as Hm
    by (vm_compute; reflexivity).
  destruct (isEqual_by_id sample_stringify sample_typeOf shapes_heap 0 this
              Hr He) as (_ & Hinst & Hself & _ & Hnull & _).
  split; [exact Hself|]. split; [|split; [|exact Hnull]].
  - apply (Hinst 1 legacy Hl). vm_compute. reflexivity.
  - rewrite (proj1 (Hinst 2 element Hm)). vm_compute. reflexivity.
Defined.

Lemma isBemEntity_marker_witness :
  isBemEntity (Instance 0) block_heap = (Ok (VBoolean true), block_heap)
  ∧ isBemEntity (Data VNull) block_heap = (Throw TypeError, block_heap).
Proof.
  destruct (isBemEntity_marker sample_stringify sample_typeOf)
    as (Hnew & _ & Hnull & _).
  split; [|exact (Hnull block_heap)].
  apply (Hnew (VObject {[ "block" := VString "b" ]}) [] 0 block_heap).
  vm_compute. reflexivity.
Defined.

(** * Further properties of the class *)

(** ** The constructor on other inputs *)

(** X1. Called on a value that is no object, the constructor throws: a
    [TypeError] on [undefined] and [null], whose [block] cannot be read, and
    the error of the missing [block] on a boolean, a number or a string.
    Nothing enters the heap. *)
Theorem constructor_non_object (obj : value) :
  (∀ props, obj ≠ VObject props) →
  (obj = VUndefined ∨ obj = VNull →
   constructor obj = Throw TypeError
   ∧ ∀ h, new_BemEntityName obj h = (Throw TypeError, h))
  ∧ (obj ≠ VUndefined → obj ≠ VNull →
     constructor obj = Throw (Error invalid_entity)
     ∧ ∀ h, new_BemEntityName obj h = (Throw (Error invalid_entity), h)).
Proof.
  intros Hobj. unfold new_BemEntityName.
  destruct obj as [| |b|n| |s|props]; try (by destruct (Hobj props)).
  all: split; [intros [?|?] | intros ? ?]; try done.
Qed.

Lemma constructor_non_object_witness :
  constructor VNull = Throw TypeError
  ∧ constructor (VString "button") = Throw (Error invalid_entity).
Proof.
  split.
  - destruct (constructor_non_object VNull) as [Hn _]; [done|].
    exact (proj1 (Hn (or_intror eq_refl))).
  - destruct (constructor_non_object (VString "button")) as [_ Hp]; [done|].
    refine (proj1 (Hp _ _)); done.
Defined.

Lemma normalized_reads_six (props1 props2 : gmap string value) :
  (∀ k, k ∈ ["block"; "elem"; "mod"; "modName"; "modVal";
             "hasOwnProperty"] →
        props1 !! k = props2 !! k) →
  normalized (VObject props1) = normalized (VObject props2)
  ∧ member (VObject props1) "block" = member (VObject props2) "block"
  ∧ resolved_name (VObject props1) = resolved_name (VObject props2)
  ∧ shadowed (VObject props1) = shadowed (VObject props2).
Proof.
  intros H.
  assert (props1 !! "block" = props2 !! "block") as E1
    by (apply H; set_unfold; tauto).
  assert (props1 !! "elem" = props2 !! "elem") as E2
    by (apply H; set_unfold; tauto).
  assert (props1 !! "mod" = props2 !! "mod") as E3
    by (apply H; set_unfold; tauto).
  assert (props1 !! "modName" = props2 !! "modName") as E4
    by (apply H; set_unfold; tauto).
  assert (props1 !! "modVal" = props2 !! "modVal") as E5
    by (apply H; set_unfold; tauto).
  assert (props1 !! "hasOwnProperty" = props2 !! "hasOwnProperty") as E6
    by (apply H; set_unfold; tauto).
  unfold normalized, shadowed, resolved_name, resolved_val, supplied_name,
    supplied_val, declared_val.
  cbn [member own]. by rewrite E1, E2, E3, E4, E5, E6.
Qed.

(** X2. Of its input the constructor reads only [block], [elem], [mod],
    [modName], [modVal] and the [hasOwnProperty] it calls: two input
    objects that agree on these six properties give the same instance or
    the same error, whatever else they hold. *)
Theorem constructor_reads_six (props1 props2 : gmap string value) :
  (∀ k, k ∈ ["block"; "elem"; "mod"; "modName"; "modVal";
             "hasOwnProperty"] →
        props1 !! k = props2 !! k) →
  constructor (VObject props1) = constructor (VObject props2).
Proof.
  intros H.
  destruct (normalized_reads_six props1 props2 H) as (Hn & Hb & Hr & Hs).
  by rewrite !constructor_object, Hn, Hb, Hr, Hs.
Qed.

Lemma constructor_reads_six_witness :
  constructor (VObject {[ "block" := VString "b"; "mod" := VString "m";
                          "tech" := VString "css"; "_isEntity" := VNull ]})
  = constructor (VObject {[ "block" := VString "b"; "mod" := VString "m" ]}).
Proof.
  apply constructor_reads_six. intros k Hk.
  repeat (apply elem_of_cons in Hk as [->|Hk]; [vm_compute; reflexivity|]).
  by apply elem_of_nil in Hk.
Defined.

(** ** Input shapes of the modifier *)

(** X3. For every input and every string [s], the shorthand [mod: s] and
    the object [mod: {name: s}] build the same instance; where the input has
    neither [mod] nor [modName], so does the legacy [modName: s]. *)
Theorem modifier_shorthand (props : gmap string value) (s : string) :
  constructor (VObject (<[ "mod" := VString s ]> props))
  = constructor (VObject
                   (<[ "mod" := VObject {[ "name" := VString s ]} ]> props))
  ∧ (props !! "mod" = None → props !! "modName" = None →
     constructor (VObject (<[ "mod" := VString s ]> props))
     = constructor (VObject (<[ "modName" := VString s ]> props))).
Proof.
  rewrite !constructor_object.
  unfold normalized, shadowed, resolved_name, resolved_val, supplied_name,
    supplied_val, declared_val.
  cbn [member own]. split.
  - rewrite !lookup_insert_eq, !lookup_insert_ne by done. cbn.
    rewrite ?lookup_singleton_eq, ?lookup_singleton_ne by done. cbn.
    rewrite ?andb_false_r.
    by destruct (String.eqb s "") eqn:Hs; cbn; rewrite ?Hs; cbn.
  - intros Hm Hn.
    rewrite !lookup_insert_eq, !lookup_insert_ne, Hm, Hn by done. cbn.
    rewrite ?andb_false_r.
    by destruct (String.eqb s "") eqn:Hs; cbn; rewrite ?Hs; cbn.
Qed.

Lemma modifier_shorthand_witness :
  constructor (VObject {[ "mod" := VString "m"; "block" := VString "b" ]})
  = constructor (VObject {[ "modName" := VString "m";
                            "block" := VString "b" ]}).
Proof.
  exact (proj2 (modifier_shorthand {[ "block" := VString "b" ]} "m")
           eq_refl eq_refl).
Defined.

(** X4. An input from which no modifier name resolves gives an entity
    without modifier, whatever value it declares: [mod] returns the empty
    object and [modName] and [modVal] return [undefined], none of them
    throws. A [modVal] or [mod.val] without a name is dropped. *)
Theorem value_without_name (props : gmap string value) (this : BemEntityName) :
  let obj := VObject props in
  constructor obj = Ok this →
  ToBoolean (resolved_name obj) = false →
  _obj this !! "mod" = None
  ∧ mod_ this = VObject ∅
  ∧ modName this = Ok VUndefined
  ∧ modVal this = Ok VUndefined
  ∧ valueOf this =
      VObject (if ToBoolean (member obj "elem")
               then {[ "elem" := member obj "elem";
                       "block" := member obj "block" ]}
               else {[ "block" := member obj "block" ]}).
Proof.
  intros obj H Hn. apply constructor_Ok in H as (? & _ & _ & ->).
  unfold modName, modVal, mod_, valueOf. cbn [_obj].
  rewrite normalized_mod, Hn. cbn. repeat (split; [done|]).
  unfold normalized. rewrite Hn. by destruct (ToBoolean _).
Qed.

Lemma value_without_name_witness :
  ∃ this,
    constructor (VObject {[ "block" := VString "b"; "modVal" := VString "v";
                            "mod" := VObject {[ "val" := VString "w" ]} ]})
      = Ok this
    ∧ mod_ this = VObject ∅
    ∧ modVal this = Ok VUndefined.
Proof.
  set (props := {[ "block" := VString "b"; "modVal" := VString "v";
                   "mod" := VObject {[ "val" := VString "w" ]} ]}
         : gmap string value).
  assert (∃ this, constructor (VObject props) = Ok this) as [this Hc].
  { eexists. vm_compute. reflexivity. }
  exists this. split; [exact Hc|].
  assert (ToBoolean (resolved_name (VObject props)) = false) as Hn
    by (vm_compute; reflexivity).
  destruct (value_without_name props this Hc Hn) as (_ & Hm & _ & Hv & _).
  split; [exact Hm | exact Hv].
Defined.

(** ** Copying an entity through its representation *)

Lemma normalized_other (obj : value) (k : string) :
  k ≠ "block" → k ≠ "elem" → k ≠ "mod" → normalized obj !! k = None.
Proof.
  intros Hb He Hm. destruct (normalized obj !! k) as [v|] eqn:Hk; [|done].
  by destruct (normalized_keys _ _ _ Hk) as [?|[?|?]].
Qed.

Lemma mod_object_name (n v : value) :
  member (VObject {[ "name" := n; "val" := v ]}) "name" = n.
Proof. unfold member. by rewrite lookup_insert_eq. Qed.

Lemma mod_object_val (n v : value) :
  member (VObject {[ "name" := n; "val" := v ]}) "val" = v.
Proof.
  unfold member. by rewrite lookup_insert_ne, lookup_singleton_eq.
Qed.

Lemma mod_object_own_val (n v : value) :
  own (VObject {[ "name" := n; "val" := v ]}) "val" = true.
Proof.
  unfold own. by rewrite lookup_insert_ne, lookup_singleton_eq.
Qed.

Lemma member_normalized_mod (obj : value) :
  member (VObject (normalized obj)) "mod" =
    if ToBoolean (resolved_name obj)
    then VObject {[ "name" := resolved_name obj; "val" := resolved_val obj ]}
    else VUndefined.
Proof.
  unfold member at 1. rewrite normalized_mod.
  by destruct (ToBoolean (resolved_name obj)).
Qed.

Lemma resolved_name_normalized (obj : value) :
  resolved_name (VObject (normalized obj)) =
    if ToBoolean (resolved_name obj) then resolved_name obj else VUndefined.
Proof.
  unfold resolved_name at 1. unfold supplied_name.
  rewrite member_normalized_mod.
  assert (member (VObject (normalized obj)) "modName" = VUndefined) as ->.
  { unfold member. by rewrite normalized_other. }
  destruct (ToBoolean (resolved_name obj)) eqn:Hn; [|done].
  cbn [typeof ToBoolean]. change (String.eqb "object" "string") with false.
  cbv iota. by rewrite mod_object_name, Hn.
Qed.

Lemma resolved_val_normalized (obj : value) :
  ToBoolean (resolved_name obj) = true →
  resolved_val (VObject (normalized obj)) =
    if ToBoolean (resolved_val obj) then resolved_val obj else VUndefined.
Proof.
  intros Hn. unfold resolved_val at 1. unfold declared_val, supplied_val.
  rewrite member_normalized_mod, Hn.
  assert (member (VObject (normalized obj)) "modVal" = VUndefined) as ->.
  { unfold member. by rewrite normalized_other. }
  assert (own (VObject (normalized obj)) "modVal" = false) as ->.
  { unfold own. by rewrite normalized_other. }
  cbn [ToBoolean]. by rewrite mod_object_own_val, mod_object_val.
Qed.

(** Normalizing what the constructor has normalized changes one thing: a
    falsy modifier value becomes [undefined]. *)
Lemma normalized_twice (obj : value) :
  normalized (VObject (normalized obj)) =
    if ToBoolean (resolved_name obj) && negb (ToBoolean (resolved_val obj))
    then <[ "mod" := VObject {[ "name" := resolved_name obj;
                                "val" := VUndefined ]} ]> (normalized obj)
    else normalized obj.
Proof.
  set (o := normalized obj).
  assert (member (VObject o) "block" = member obj "block") as Eb.
  { unfold member, o. by rewrite normalized_block. }
  assert (member (VObject o) "elem" =
            if ToBoolean (member obj "elem") then member obj "elem"
            else VUndefined) as Ee.
  { unfold member at 1. unfold o. rewrite normalized_elem.
    by destruct (ToBoolean (member obj "elem")). }
  unfold normalized at 1. rewrite Eb, Ee. unfold o.
  rewrite resolved_name_normalized.
  assert ((if ToBoolean (if ToBoolean (member obj "elem")
                         then member obj "elem" else VUndefined)
           then <[ "elem" := if ToBoolean (member obj "elem")
                             then member obj "elem" else VUndefined ]>
                  ({[ "block" := member obj "block" ]} : gmap string value)
           else {[ "block" := member obj "block" ]})
          = if ToBoolean (member obj "elem")
            then <[ "elem" := member obj "elem" ]>
                   {[ "block" := member obj "block" ]}
            else {[ "block" := member obj "block" ]}) as ->.
  { by destruct (ToBoolean (member obj "elem")) eqn:He; rewrite ?He. }
  destruct (ToBoolean (resolved_name obj)) eqn:Hn; cbn [andb].
  - rewrite Hn, (resolved_val_normalized obj Hn). unfold normalized.
    rewrite Hn.
    destruct (ToBoolean (resolved_val obj)); cbn [negb]; [done|].
    by rewrite insert_insert_eq.
  - unfold normalized. by rewrite Hn.
Qed.

(** From the second time on, normalizing changes nothing. *)
Lemma normalized_thrice (obj : value) :
  normalized (VObject (normalized (VObject (normalized obj))))
  = normalized (VObject (normalized obj)).
Proof.
  rewrite (normalized_twice (VObject (normalized obj))).
  rewrite resolved_name_normalized.
  destruct (ToBoolean (resolved_name obj)) eqn:Hn; [|done].
  rewrite Hn, (resolved_val_normalized obj Hn). cbn [andb].
  destruct (ToBoolean (resolved_val obj)) eqn:Hv; rewrite ?Hv; [done|].
  cbn [ToBoolean negb]. apply insert_id.
  rewrite normalized_mod, resolved_name_normalized, Hn, Hn.
  by rewrite (resolved_val_normalized obj Hn), Hv.
Qed.

Lemma mod_getter (o : gmap string value) (n v a : value)
    (b c : option string) :
  o !! "mod" = Some (VObject {[ "name" := n; "val" := v ]}) →
  mod_ (mkBemEntityName o a b c) = VObject {[ "name" := n; "val" := v ]}.
Proof. intros H. unfold mod_. cbn [_obj]. by rewrite H. Qed.

Lemma shadowed_normalized (obj : value) :
  shadowed (VObject (normalized obj)) = false.
Proof.
  apply unshadowed.
  - unfold own. by rewrite normalized_other.
  - rewrite member_normalized_mod.
    destruct (ToBoolean (resolved_name obj)); [|done].
    unfold own. by rewrite lookup_insert_ne, lookup_singleton_ne.
Qed.

Lemma constructor_normalized (obj : value) :
  ToBoolean (member obj "block") = true →
  constructor (VObject (normalized obj))
  = Ok (mkBemEntityName (normalized (VObject (normalized obj)))
          (VBoolean true) None None).
Proof.
  intros Hb. apply constructor_succeeds.
  - unfold member. by rewrite normalized_block.
  - by rewrite shadowed_normalized, andb_false_r.
Qed.

Lemma modVal_no_modifier (obj : value) (a : value) (b c : option string) :
  ToBoolean (resolved_name obj) = false →
  modVal (mkBemEntityName (normalized obj) a b c) = Ok VUndefined.
Proof.
  intros Hn. unfold modVal, mod_. cbn [_obj].
  by rewrite normalized_mod, Hn.
Qed.

(** X5. An entity built again from its own representation,
    [new BemEntityName(e.valueOf())], has the [block], [elem] and modifier
    name of [e] and hands the same tuple to [bem-naming]. Its modifier
    value is that of [e] when truthy and [undefined] when falsy, so it is
    [e] itself when the modifier value of [e] is truthy or [undefined]; and
    building again from the copy gives the copy. *)
Theorem valueOf_round_trip (props : gmap string value) (this : BemEntityName) :
  constructor (VObject props) = Ok this →
  ∃ copy, constructor (valueOf this) = Ok copy
    ∧ block copy = block this
    ∧ elem copy = elem this
    ∧ modName copy = modName this
    ∧ entity_tuple copy = entity_tuple this
    ∧ (∀ v, modVal this = Ok v →
            modVal copy = Ok (if ToBoolean v then v else VUndefined))
    ∧ (∀ v, modVal this = Ok v → ToBoolean v = true ∨ v = VUndefined →
            copy = this)
    ∧ constructor (valueOf copy) = Ok copy.
Proof.
  intros H. apply constructor_Ok in H as (? & _ & Hb & ->).
  set (obj := VObject props) in *.
  exists (mkBemEntityName (normalized (VObject (normalized obj)))
            (VBoolean true) None None).
  unfold valueOf. cbn [_obj].
  split; [by apply constructor_normalized|].
  assert (constructor (VObject (normalized (VObject (normalized obj))))
          = Ok (mkBemEntityName (normalized (VObject (normalized obj)))
                  (VBoolean true) None None)) as Hagain.
  { rewrite constructor_normalized, normalized_thrice; [done|].
    unfold member. by rewrite normalized_block. }
  rewrite normalized_twice in *.
  destruct (ToBoolean (resolved_name obj)) eqn:Hn; cbn [andb] in *.
  2:{ repeat (split; [done|]). split; [|done].
      intros v. rewrite modVal_no_modifier by done. by intros [= <-]. }
  destruct (ToBoolean (resolved_val obj)) eqn:Hv; cbn [negb] in *.
  { repeat (split; [done|]). split; [|done].
    intros v. rewrite modVal_normalized by done. intros [= <-].
    by rewrite Hv. }
  split; [|split; [|split; [|split; [|split; [|split; [|exact Hagain]]]]]].
  - unfold block. cbn [_obj]. by rewrite lookup_insert_ne.
  - unfold elem. cbn [_obj]. by rewrite lookup_insert_ne.
  - rewrite modName_normalized by done.
    unfold modName, mod_. cbn [_obj]. rewrite lookup_insert_eq. cbn.
    by rewrite lookup_insert_eq.
  - unfold entity_tuple.
    rewrite (mod_getter _ (resolved_name obj) VUndefined)
      by apply lookup_insert_eq.
    rewrite (mod_getter (normalized obj) (resolved_name obj)
               (resolved_val obj)) by (by rewrite normalized_mod, Hn).
    unfold block, elem. cbn [_obj].
    rewrite !lookup_insert_ne by done.
    by rewrite !mod_object_name, !mod_object_val, Hv.
  - intros v. rewrite modVal_normalized by done. intros [= <-].
    rewrite Hv. unfold modVal.
    rewrite (mod_getter _ (resolved_name obj) VUndefined)
      by apply lookup_insert_eq.
    by rewrite Get_member, mod_object_val.
  - intros v. rewrite modVal_normalized by done.
    intros [= <-] [Ht|Hu]; [congruence|].
    f_equal. apply insert_id. by rewrite normalized_mod, Hn, Hu.
Qed.

Lemma valueOf_round_trip_witness :
  ∃ this copy,
    constructor (VObject {[ "block" := VString "b"; "modName" := VString "m";
                            "modVal" := VString "" ]}) = Ok this
    ∧ constructor (valueOf this) = Ok copy
    ∧ entity_tuple copy = entity_tuple this
    ∧ modVal copy = Ok VUndefined
    ∧ constructor (valueOf copy) = Ok copy.
Proof.
  set (props := {[ "block" := VString "b"; "modName" := VString "m";
                   "modVal" := VString "" ]} : gmap string value).
  assert (∃ this, constructor (VObject props) = Ok this
                  ∧ modVal this = Ok (VString "")) as (this & Hc & Hv).
  { eexists. split; vm_compute; reflexivity. }
  destruct (valueOf_round_trip props this Hc)
    as (copy & Hcopy & _ & _ & _ & Ht & Hval & _ & Hagain).
  exists this, copy. split; [exact Hc|]. split; [exact Hcopy|].
  split; [exact Ht|]. split; [exact (Hval _ Hv) | exact Hagain].
Defined.

(** ** Instances over the life of a heap *)

Section Evolution.

Variable stringifyEntity : value → string.
Variable typeOfEntity : value → string.

Lemma instance_ok_normalized (e : BemEntityName) :
  instance_ok stringifyEntity typeOfEntity e →
  ∃ obj, _obj e = normalized obj ∧ ToBoolean (member obj "block") = true.
Proof.
  intros ([obj Hc] & _). apply constructor_Ok in Hc as (props & -> & Hb & Heq).
  exists (VObject props). split; [congruence | done].
Qed.

Lemma id_keeps (l : loc) (h : heap) :
  heap_ok stringifyEntity typeOfEntity h →
  heap_ok stringifyEntity typeOfEntity (id stringifyEntity l h).2
  ∧ same_entities h (id stringifyEntity l h).2.
Proof.
  intros Hh. destruct (h !! l) as [e|] eqn:He.
  - by destruct (id_ok stringifyEntity typeOfEntity l h e Hh He)
      as (h' & -> & Hh' & Hs).
  - rewrite id_dangling by done. split; [done | apply same_entities_refl].
Qed.

Lemma type_keeps (l : loc) (h : heap) :
  heap_ok stringifyEntity typeOfEntity h →
  heap_ok stringifyEntity typeOfEntity (type typeOfEntity l h).2
  ∧ same_entities h (type typeOfEntity l h).2.
Proof.
  intros Hh. destruct (h !! l) as [e|] eqn:He.
  - by destruct (type_ok stringifyEntity typeOfEntity l h e Hh He)
      as (h' & -> & Hh' & Hs).
  - rewrite type_dangling by done. split; [done | apply same_entities_refl].
Qed.

Lemma isEqual_keeps (l : loc) (entity : operand) (h : heap) :
  heap_ok stringifyEntity typeOfEntity h →
  heap_ok stringifyEntity typeOfEntity (isEqual stringifyEntity l entity h).2
  ∧ same_entities h (isEqual stringifyEntity l entity h).2.
Proof.
  intros Hh.
  assert (∀ entity,
     heap_ok stringifyEntity typeOfEntity
       ((a ← id stringifyEntity l; b ← id_of stringifyEntity entity;
         mret (VBoolean (strict_equals a b))) h).2
     ∧ same_entities h
       ((a ← id stringifyEntity l; b ← id_of stringifyEntity entity;
         mret (VBoolean (strict_equals a b))) h).2) as Hcmp.
  { clear entity. intros entity. unfold mbind, M_bind, mret, M_ret.
    destruct (id_keeps l h Hh) as [H1 S1].
    destruct (id stringifyEntity l h) as [[a|x] h1]; [|done].
    destruct entity as [v|l']; cbn [id_of lift].
    - by destruct (Get v "id").
    - destruct (id_keeps l' h1 H1) as [H2 S2]. unfold mbind, M_bind.
      destruct (id stringifyEntity l' h1) as [[b|y] h2]; cbn [snd] in *.
      all: split; [done | by eapply same_entities_trans]. }
  unfold isEqual. destruct entity as [v|l']; [|apply Hcmp].
  destruct (ToBoolean v); [apply Hcmp|].
  split; [done | apply same_entities_refl].
Qed.

(** Whatever a program does next, the heap stays well formed, only grows,
    and keeps the fields of the instances it holds. *)
Lemma evolves_keeps (h h' : heap) :
  heap_ok stringifyEntity typeOfEntity h →
  evolves stringifyEntity typeOfEntity h h' →
  heap_ok stringifyEntity typeOfEntity h'
  ∧ (length h ≤ length h')%nat
  ∧ ∀ l e, h !! l = Some e →
      ∃ e', h' !! l = Some e' ∧ _obj e' = _obj e
            ∧ _isEntity e' = _isEntity e.
Proof.
  intros Hh. induction 1 as [h|obj h h' _ IH|l h h' _ IH|l h h' _ IH
                              |l h h' _ IH|l entity h h' _ IH].
  - split; [done|]. split; [done|]. intros l e He. by exists e.
  - destruct (IH Hh) as (Hh' & Hlen & Hkeep).
    split; [by apply heap_ok_new|].
    unfold new_BemEntityName. destruct (constructor obj) as [e0|x]; [|done].
    cbn [snd]. split; [rewrite length_app; lia|].
    intros l e He. destruct (Hkeep l e He) as (e' & He' & Ho & Hi).
    exists e'. split; [|done]. by apply lookup_app_l_Some.
  - destruct (IH Hh) as (Hh' & Hlen & Hkeep).
    destruct (id_keeps l h' Hh') as [H1 S1]. split; [done|].
    split; [by rewrite <- (Forall2_length _ _ _ S1)|].
    intros k e He. destruct (Hkeep k e He) as (e' & He' & Ho & Hi).
    destruct (same_entities_lookup _ _ k e' S1 He') as (e'' & ? & ? & ?).
    exists e''. split; [done|]. split; congruence.
  - destruct (IH Hh) as (Hh' & Hlen & Hkeep).
    destruct (type_keeps l h' Hh') as [H1 S1]. split; [done|].
    split; [by rewrite <- (Forall2_length _ _ _ S1)|].
    intros k e He. destruct (Hkeep k e He) as (e' & He' & Ho & Hi).
    destruct (same_entities_lookup _ _ k e' S1 He') as (e'' & ? & ? & ?).
    exists e''. split; [done|]. split; congruence.
  - destruct (IH Hh) as (Hh' & Hlen & Hkeep). unfold toString.
    destruct (id_keeps l h' Hh') as [H1 S1]. split; [done|].
    split; [by rewrite <- (Forall2_length _ _ _ S1)|].
    intros k e He. destruct (Hkeep k e He) as (e' & He' & Ho & Hi).
    destruct (same_entities_lookup _ _ k e' S1 He') as (e'' & ? & ? & ?).
    exists e''. split; [done|]. split; congruence.
  - destruct (IH Hh) as (Hh' & Hlen & Hkeep).
    destruct (isEqual_keeps l entity h' Hh') as [H1 S1]. split; [done|].
    split; [by rewrite <- (Forall2_length _ _ _ S1)|].
    intros k e He. destruct (Hkeep k e He) as (e' & He' & Ho & Hi).
    destruct (same_entities_lookup _ _ k e' S1 He') as (e'' & ? & ? & ?).
    exists e''. split; [done|]. split; congruence.
Qed.

(** X6. An instance is never changed or removed. Whatever is constructed
    and whichever methods are called after a reachable heap, the instance at
    a location keeps its [_obj], hence what [valueOf] and [inspect] show,
    and its marker, and [id] and [type] keep returning what they returned
    before; the heap only grows. *)
Theorem instances_are_immutable (h h' : heap) (l : loc) (this : BemEntityName) :
  reachable stringifyEntity typeOfEntity h →
  evolves stringifyEntity typeOfEntity h h' →
  h !! l = Some this →
  (length h ≤ length h')%nat
  ∧ ∃ this', h' !! l = Some this'
      ∧ _obj this' = _obj this
      ∧ valueOf this' = valueOf this
      ∧ (∀ util_inspect depth options,
           inspect util_inspect this' depth options
           = inspect util_inspect this depth options)
      ∧ isBemEntity (Instance l) h' = (Ok (VBoolean true), h')
      ∧ (id stringifyEntity l h').1 = (id stringifyEntity l h).1
      ∧ (type typeOfEntity l h').1 = (type typeOfEntity l h).1.
Proof.
  intros Hr Hev He. apply reachable_ok in Hr.
  destruct (evolves_keeps h h' Hr Hev) as (Hh' & Hlen & Hkeep).
  split; [done|]. destruct (Hkeep l this He) as (this' & He' & Ho & Hi).
  exists this'. split; [done|]. split; [done|].
  split; [unfold valueOf; by rewrite Ho|].
  split; [intros; unfold inspect; by rewrite Ho|].
  pose proof (Forall_lookup_1 _ _ _ _ Hh' He') as (_ & Hm & _).
  split.
  { unfold isBemEntity, deref, mbind, M_bind, mret, M_ret, heap, loc in *.
    by rewrite He', Hm. }
  destruct (id_ok stringifyEntity typeOfEntity l h this Hr He)
    as (h1 & -> & _).
  destruct (id_ok stringifyEntity typeOfEntity l h' this' Hh' He')
    as (h2 & -> & _).
  destruct (type_ok stringifyEntity typeOfEntity l h this Hr He)
    as (h3 & -> & _).
  destruct (type_ok stringifyEntity typeOfEntity l h' this' Hh' He')
    as (h4 & -> & _).
  cbn [fst]. unfold id_value. by rewrite (entity_tuple_obj this this' Ho).
Qed.

(** X7. In every reachable heap the getter [type] returns what
    [typeOfEntity] answers for the tuple that [id] hands to
    [stringifyEntity], on the first call and on the next, and reading
    [type] does not change what [id] returns. *)
Theorem type_is_classification (h : heap) (l : loc) (this : BemEntityName) :
  reachable stringifyEntity typeOfEntity h →
  h !! l = Some this →
  ∃ h', type typeOfEntity l h
        = (Ok (typeOfEntity (VObject (entity_tuple this))), h')
    ∧ (type typeOfEntity l h').1
      = Ok (typeOfEntity (VObject (entity_tuple this)))
    ∧ (id stringifyEntity l h).1
      = Ok (stringifyEntity (VObject (entity_tuple this)))
    ∧ (id stringifyEntity l h').1 = (id stringifyEntity l h).1.
Proof.
  intros Hr He. apply reachable_ok in Hr.
  destruct (type_ok stringifyEntity typeOfEntity l h this Hr He)
    as (h' & Hty & Hh' & Hs).
  exists h'. split; [exact Hty|].
  destruct (same_entities_lookup h h' l this Hs He) as (e' & He' & Ho & _).
  destruct (type_ok stringifyEntity typeOfEntity l h' e' Hh' He')
    as (h2 & -> & _).
  destruct (id_ok stringifyEntity typeOfEntity l h this Hr He)
    as (h3 & -> & _).
  destruct (id_ok stringifyEntity typeOfEntity l h' e' Hh' He')
    as (h4 & -> & _).
  cbn [fst]. unfold id_value. by rewrite (entity_tuple_obj this e' Ho).
Qed.

(** X8. The slots settle after one read, in any heap: calling [id] (or
    [type]) again on the heap the first call left returns the same result
    and leaves that heap as it is. *)
Theorem getters_settle (l : loc) (h : heap) :
  id stringifyEntity l (id stringifyEntity l h).2 = id stringifyEntity l h
  ∧ type typeOfEntity l (type typeOfEntity l h).2 = type typeOfEntity l h.
Proof.
  split.
  - destruct (h !! l) as [e|] eqn:He.
    + rewrite (id_eval stringifyEntity l h e He).
      destruct (cached (_id e)) as [s|] eqn:Hs; cbn [snd].
      * by rewrite (id_eval stringifyEntity l h e He), Hs.
      * assert (l < length h)%nat as Hl by (by eapply lookup_lt_Some).
        erewrite id_eval by (by apply list_lookup_insert_eq).
        cbn [_id _obj _isEntity _type cached].
        destruct (ToBoolean (VString (id_value stringifyEntity e))); [done|].
        unfold heap, loc in *. by rewrite list_insert_insert_eq.
    + rewrite (id_dangling stringifyEntity l h He). cbn [snd].
      by rewrite id_dangling.
  - destruct (h !! l) as [e|] eqn:He.
    + rewrite (type_eval typeOfEntity l h e He).
      destruct (cached (_type e)) as [s|] eqn:Hs; cbn [snd].
      * by rewrite (type_eval typeOfEntity l h e He), Hs.
      * assert (l < length h)%nat as Hl by (by eapply lookup_lt_Some).
        cbv zeta. cbn [snd].
        erewrite type_eval by (by apply list_lookup_insert_eq).
        cbn [_id _obj _isEntity _type cached]. cbv zeta.
        destruct (ToBoolean (VString (typeOfEntity (VObject (entity_tuple e)))));
          [done|].
        unfold heap, loc in *. by rewrite list_insert_insert_eq.
    + rewrite (type_dangling typeOfEntity l h He). cbn [snd].
      by rewrite type_dangling.
Qed.

(** X9. On the instances of a reachable heap [isEqual] is symmetric and
    transitive: [a.isEqual(b)] returns what [b.isEqual(a)] returns, and if
    [a.isEqual(b)] and [b.isEqual(c)] return [true], so does
    [a.isEqual(c)]. *)
Theorem isEqual_equivalence (h : heap) (a b c : loc)
    (ea eb ec : BemEntityName) :
  reachable stringifyEntity typeOfEntity h →
  h !! a = Some ea → h !! b = Some eb → h !! c = Some ec →
  (isEqual stringifyEntity a (Instance b) h).1
  = (isEqual stringifyEntity b (Instance a) h).1
  ∧ ((isEqual stringifyEntity a (Instance b) h).1 = Ok (VBoolean true) →
     (isEqual stringifyEntity b (Instance c) h).1 = Ok (VBoolean true) →
     (isEqual stringifyEntity a (Instance c) h).1 = Ok (VBoolean true)).
Proof.
  intros Hr Ha Hb Hc. apply reachable_ok in Hr.
  destruct (isEqual_instance stringifyEntity typeOfEntity a b h ea eb Hr Ha Hb)
    as (h1 & -> & _).
  destruct (isEqual_instance stringifyEntity typeOfEntity b a h eb ea Hr Hb Ha)
    as (h2 & -> & _).
  destruct (isEqual_instance stringifyEntity typeOfEntity b c h eb ec Hr Hb Hc)
    as (h3 & -> & _).
  destruct (isEqual_instance stringifyEntity typeOfEntity a c h ea ec Hr Ha Hc)
    as (h4 & -> & _).
  cbn [fst]. split; [by rewrite String.eqb_sym|].
  intros [= Hab%String.eqb_eq] [= Hbc%String.eqb_eq].
  by rewrite Hab, Hbc, String.eqb_refl.
Qed.

(** X10. The object [valueOf] returns is not taken for the entity: passed
    to [isBemEntity] it yields [undefined], since it carries no marker, and
    passed to [isEqual] of its own entity it yields [false], since it
    carries no [id]. *)
Theorem representation_is_no_entity (h : heap) (l : loc)
    (this : BemEntityName) :
  reachable stringifyEntity typeOfEntity h →
  h !! l = Some this →
  isBemEntity (Data (valueOf this)) h = (Ok VUndefined, h)
  ∧ (isEqual stringifyEntity l (Data (valueOf this)) h).1
    = Ok (VBoolean false).
Proof.
  intros Hr He. apply reachable_ok in Hr.
  pose proof (Forall_lookup_1 _ _ _ _ Hr He) as Hok.
  destruct (instance_ok_normalized this Hok) as (obj & Ho & _).
  split.
  - unfold isBemEntity, lift, valueOf, Get. by rewrite Ho, normalized_other.
  - destruct (isEqual_data stringifyEntity typeOfEntity l (valueOf this) h
                this Hr He eq_refl) as (h' & -> & _).
    cbn [fst]. unfold valueOf, member. by rewrite Ho, normalized_other.
Qed.

(** X11. Every instance of a reachable heap has the shape the constructor
    gives: a truthy [block]; an [elem] that is truthy or absent; a [mod]
    that is absent, the getter then returning the empty object, or an
    object of exactly [name] and [val] with a truthy [name]; no other key;
    the marker set. *)
Theorem entity_shape (h : heap) (l : loc) (this : BemEntityName) :
  reachable stringifyEntity typeOfEntity h →
  h !! l = Some this →
  ToBoolean (block this) = true
  ∧ (_obj this !! "elem" = None ∧ elem this = VUndefined
     ∨ ToBoolean (elem this) = true)
  ∧ (_obj this !! "mod" = None ∧ mod_ this = VObject ∅
     ∨ ∃ n v, _obj this !! "mod" = Some (mod_ this)
         ∧ mod_ this = VObject {[ "name" := n; "val" := v ]}
         ∧ ToBoolean n = true
         ∧ modName this = Ok n ∧ modVal this = Ok v)
  ∧ dom (_obj this) ⊆ {[ "block"; "elem"; "mod" ]}
  ∧ _isEntity this = VBoolean true.
Proof.
  intros Hr He. apply reachable_ok in Hr.
  pose proof (Forall_lookup_1 _ _ _ _ Hr He) as Hok.
  destruct (instance_ok_normalized this Hok) as (obj & Ho & Hb).
  destruct Hok as (_ & Hm & _).
  unfold block, elem, modName, modVal, mod_. rewrite Ho.
  rewrite normalized_block, normalized_elem, normalized_mod.
  split; [done|]. split; [|split; [|split; [apply normalized_dom|done]]].
  - destruct (ToBoolean (member obj "elem")) eqn:Hel; [by right | by left].
  - destruct (ToBoolean (resolved_name obj)) eqn:Hn; [right | by left].
    exists (resolved_name obj), (resolved_val obj). cbn.
    by rewrite lookup_insert_eq, lookup_insert_ne, lookup_singleton_eq.
Qed.

End Evolution.

Lemma instances_are_immutable_witness :
  (length block_heap ≤ length later_heap)%nat
  ∧ (id sample_stringify 0 later_heap).1 = (id sample_stringify 0 block_heap).1
  ∧ isBemEntity (Instance 0) later_heap = (Ok (VBoolean true), later_heap).
Proof.
  set (this := mkBemEntityName
                 (normalized (VObject {[ "block" := VString "b" ]}))
                 (VBoolean true) None None).
  assert (reachable sample_stringify sample_typeOf block_heap) as Hr
    by apply reachable_new, reachable_nil.
  assert (evolves sample_stringify sample_typeOf block_heap later_heap) as Hev
    by apply evolves_isEqual, evolves_new, evolves_id, evolves_here.
  assert (block_heap !! 0 = Some this) as He by (vm_compute; reflexivity).
  destruct (instances_are_immutable sample_stringify sample_typeOf
              block_heap later_heap 0 this Hr Hev He)
    as (Hlen & this' & _ & _ & _ & _ & Hm & Hid & _).
  split; [exact Hlen|]. split; [exact Hid | exact Hm].
Defined.

Lemma type_is_classification_witness :
  (type sample_typeOf 0 menu_heap).1 = Ok "elemMod"
  ∧ (id sample_stringify 0 menu_heap).1 = Ok "menu__item_current".
Proof.
  set (this := mkBemEntityName
                 (normalized
                    (VObject {[ "block" := VString "menu";
                                "elem" := VString "item";
                                "mod" := VString "current" ]}))
                 (VBoolean true) None None).
  assert (reachable sample_stringify sample_typeOf menu_heap) as Hr
    by apply reachable_new, reachable_nil.
  assert (menu_heap !! 0 = Some this) as He by (vm_compute; reflexivity).
  destruct (type_is_classification sample_stringify sample_typeOf menu_heap
              0 this Hr He) as (h' & Hty & _ & Hid & _).
  rewrite Hty, Hid. split; vm_compute; reflexivity.
Defined.

Lemma isEqual_equivalence_witness :
  (isEqual sample_stringify 0 (Instance 1) shapes_heap).1
  = (isEqual sample_stringify 1 (Instance 0) shapes_heap).1
  ∧ (isEqual sample_stringify 0 (Instance 2) shapes_heap).1
    = (isEqual sample_stringify 2 (Instance 0) shapes_heap).1.
Proof.
  set (this := mkBemEntityName
                 (normalized
                    (VObject {[ "block" := VString "b";
                                "mod" := VString "m" ]}))
                 (VBoolean true) None None).
  set (legacy := mkBemEntityName
                   (normalized
                      (VObject {[ "block" := VString "b";
                                  "modName" := VString "m" ]}))
                   (VBoolean true) None None).
  set (element := mkBemEntityName
                    (normalized
                       (VObject {[ "block" := VString "b";
                                   "elem" := VString "e" ]}))
                    (VBoolean true) None None).
  assert (reachable sample_stringify sample_typeOf shapes_heap) as Hr
    by apply reachable_new, reachable_new, reachable_new, reachable_nil.
  assert (shapes_heap !! 0 = Some this) as He by (vm_compute; reflexivity).
  assert (shapes_heap !! 1 = Some legacy) as Hl by (vm_compute; reflexivity).
  assert (shapes_heap !! 2 = Some element) as Hm
    by (vm_compute; reflexivity).
  split.
  - exact (proj1 (isEqual_equivalence sample_stringify sample_typeOf
                    shapes_heap 0 1 2 this legacy element Hr He Hl Hm)).
  - exact (proj1 (isEqual_equivalence sample_stringify sample_typeOf
                    shapes_heap 0 2 1 this element legacy Hr He Hm Hl)).
Defined.

Lemma representation_is_no_entity_witness :
  isBemEntity (Data (VObject {[ "block" := VString "b" ]})) block_heap
  = (Ok VUndefined, block_heap)
  ∧ (isEqual sample_stringify 0 (Data (VObject {[ "block" := VString "b" ]}))
       block_heap).1 = Ok (VBoolean false).
Proof.
  set (this := mkBemEntityName
                 (normalized (VObject {[ "block" := VString "b" ]}))
                 (VBoolean true) None None).
  assert (reachable sample_stringify sample_typeOf block_heap) as Hr
    by apply reachable_new, reachable_nil.
  assert (block_heap !! 0 = Some this) as He by (vm_compute; reflexivity).
  assert (valueOf this = VObject {[ "block" := VString "b" ]}) as Hv
    by (vm_compute; reflexivity).
  rewrite <- Hv.
  exact (representation_is_no_entity sample_stringify sample_typeOf
           block_heap 0 this Hr He).
Defined.

Lemma entity_shape_witness :
  ∃ this, menu_heap !! 0 = Some this
    ∧ ToBoolean (block this) = true
    ∧ _isEntity this = VBoolean true.
Proof.
  set (this := mkBemEntityName
                 (normalized
                    (VObject {[ "block" := VString "menu";
                                "elem" := VString "item";
                                "mod" := VString "current" ]}))
                 (VBoolean true) None None).
  assert (reachable sample_stringify sample_typeOf menu_heap) as Hr
    by apply reachable_new, reachable_nil.
  assert (menu_heap !! 0 = Some this) as He by (vm_compute; reflexivity).
  destruct (entity_shape sample_stringify sample_typeOf menu_heap 0 this
              Hr He) as (Hb & _ & _ & _ & Hm).
  exists this. split; [exact He|]. split; [exact Hb | exact Hm].
Defined.

(** ** Falsy fields *)

(** X12. A falsy [block], [elem], [mod] or [modName] counts as absent: the
    constructor gives the same instance, or the same error, as for the
    input without that property. *)
Theorem falsy_field_is_absent (props : gmap string value) (k : string)
    (v : value) :
  k ∈ ["block"; "elem"; "mod"; "modName"] →
  ToBoolean v = false →
  constructor (VObject (<[ k := v ]> props))
  = constructor (VObject (delete k props)).
Proof.
  intros Hk Hv. rewrite !constructor_object.
  unfold normalized, shadowed, resolved_name, resolved_val, supplied_name,
    supplied_val, declared_val.
  cbn [member own].
  repeat (apply elem_of_cons in Hk as [->|Hk]); [| | | |by apply elem_of_nil in Hk].
  all: rewrite !lookup_insert_eq, !lookup_delete_eq,
         ?lookup_insert_ne, ?lookup_delete_ne by done.
  all: change (default VUndefined (Some v)) with v;
       change (default VUndefined (@None value)) with VUndefined.
  all: rewrite ?Hv; cbn [ToBoolean]; try done.
  - rewrite ?andb_false_r. cbn [andb].
    destruct (String.eqb (typeof v) "string"); by rewrite ?Hv.
  - match goal with
    | |- context [ToBoolean (if ToBoolean ?s then _ else v)] =>
        destruct (ToBoolean s) eqn:Hs; rewrite ?Hs, ?Hv
    end; done.
Qed.

Lemma falsy_field_is_absent_witness :
  constructor (VObject {[ "elem" := VString ""; "block" := VString "b" ]})
  = constructor (VObject {[ "block" := VString "b" ]})
  ∧ constructor (VObject {[ "mod" := VNull; "block" := VString "b" ]})
    = constructor (VObject {[ "block" := VString "b" ]}).
Proof.
  split.
  - rewrite (falsy_field_is_absent {[ "block" := VString "b" ]} "elem"
               (VString "")); [|set_unfold; tauto|reflexivity].
    vm_compute. reflexivity.
  - rewrite (falsy_field_is_absent {[ "block" := VString "b" ]} "mod" VNull);
      [|set_unfold; tauto|reflexivity].
    vm_compute. reflexivity.
Defined.
